(** * twlv: the Message envelope and the Peer record

    A shallow embedding of [src/message.js] and [src/peer.js], and the
    properties of the wire format, of the crypto-flag state machine, of
    [clone] and of the Peer record.

    - A JavaScript number is an integer of [Z]; a byte is a [Z] in [0, 256).
    - A JavaScript string is the list of its UTF-16 code units.
    - A Node [Buffer] is a view (backing store, byte offset, length) on a
      store of byte arrays: buffers are shared by reference, [slice] makes a
      view on the same memory, and writes through one view are seen through
      every other view of that memory. The methods of Buffer behave as in
      Node.js 10 and later: integer writes check their range, a hex write
      stops at the first pair that is not hexadecimal.
    - A method that may throw runs in a state-and-exception monad over that
      store; a method of a mutable object returns the state of its receiver
      after the call next to its return value.
    - The Identity class is not part of the sources: an identity is a
      record of its address and of its four operations on bytes. *)

From Stdlib Require Import ZArith String Ascii.
From stdpp Require Import base tactics option list.

Local Open Scope nat_scope.

(** ** JavaScript strings *)

Abbreviation jsstring := (list Z).

(** The code units of an ASCII literal. *)
Definition js (s : string) : jsstring :=
  map (fun a => Z.of_N (N_of_ascii a)) (list_ascii_of_string s).
Arguments js : simpl never.

(** [String.prototype.startsWith], from position 0. *)
Fixpoint startsWith (s p : jsstring) {struct p} : bool :=
  match p, s with
  | [], _ => true
  | _ :: _, [] => false
  | c :: p', d :: s' => (c =? d)%Z && startsWith s' p'
  end.

(** ** Byte arrays *)

(** Overwrite [l] from index [off] on with [bs], which fits. *)
Definition splice (off : nat) (bs l : list Z) : list Z :=
  take off l ++ bs ++ drop (off + length bs) l.

(** The [n] bytes of [l] from index [off] on. *)
Definition window (off n : nat) (l : list Z) : list Z :=
  take n (drop off l).

(** *** Hexadecimal *)

Definition unhex (c : Z) : option Z :=
  if (48 <=? c)%Z && (c <=? 57)%Z then Some (c - 48)%Z
  else if (97 <=? c)%Z && (c <=? 102)%Z then Some (c - 87)%Z
  else if (65 <=? c)%Z && (c <=? 70)%Z then Some (c - 55)%Z
  else None.

Definition hexdigit (x : Z) : Z :=
  if (x <? 10)%Z then (48 + x)%Z else (87 + x)%Z.

(** The bytes a hex write stores: one per pair of hex digits, at most [n],
    up to the first pair that is not hexadecimal. *)
Fixpoint hexDecode (n : nat) (s : jsstring) : list Z :=
  match n, s with
  | S n', a :: b :: s' =>
      match unhex a, unhex b with
      | Some x, Some y => (x * 16 + y)%Z :: hexDecode n' s'
      | _, _ => []
      end
  | _, _ => []
  end.

(** [toString('hex')]: two lowercase digits per byte. *)
Definition hexEncode (bs : list Z) : jsstring :=
  flat_map (fun b => [hexdigit (b / 16); hexdigit (b mod 16)]) bs.

(** *** UTF-8 *)

Definition isHighSurrogate (c : Z) : bool := (0xD800 <=? c)%Z && (c <=? 0xDBFF)%Z.
Definition isLowSurrogate (c : Z) : bool := (0xDC00 <=? c)%Z && (c <=? 0xDFFF)%Z.

Definition replacement : list Z := [0xEF; 0xBF; 0xBD]%Z.

Definition utf8_2 (c : Z) : list Z :=
  [Z.lor 0xC0 (Z.shiftr c 6); Z.lor 0x80 (Z.land c 0x3F)].

Definition utf8_3 (c : Z) : list Z :=
  [Z.lor 0xE0 (Z.shiftr c 12);
   Z.lor 0x80 (Z.land (Z.shiftr c 6) 0x3F);
   Z.lor 0x80 (Z.land c 0x3F)].

Definition utf8_4 (c : Z) : list Z :=
  [Z.lor 0xF0 (Z.shiftr c 18);
   Z.lor 0x80 (Z.land (Z.shiftr c 12) 0x3F);
   Z.lor 0x80 (Z.land (Z.shiftr c 6) 0x3F);
   Z.lor 0x80 (Z.land c 0x3F)].

(** The UTF-8 bytes of a string, as [Buffer.from(string)] stores them: a
    surrogate pair is one code point of four bytes, a lone surrogate is
    written as U+FFFD. *)
Fixpoint utf8Encode (s : jsstring) : list Z :=
  match s with
  | [] => []
  | c :: s' =>
      if (c <? 0x80)%Z then c :: utf8Encode s'
      else if (c <? 0x800)%Z then utf8_2 c ++ utf8Encode s'
      else if isHighSurrogate c then
        match s' with
        | d :: s'' =>
            if isLowSurrogate d
            then utf8_4 (0x10000 + (c - 0xD800) * 0x400 + (d - 0xDC00))%Z
                   ++ utf8Encode s''
            else replacement ++ utf8Encode s'
        | [] => replacement
        end
      else if isLowSurrogate c then replacement ++ utf8Encode s'
      else utf8_3 c ++ utf8Encode s'
  end.

Definition inRange (lo hi b : Z) : bool := (lo <=? b)%Z && (b <=? hi)%Z.
Definition cont (b : Z) : Z := Z.land b 0x3F.

(** The code units of a code point: itself, or a surrogate pair. *)
Definition codeUnits (cp : Z) : jsstring :=
  if (cp <? 0x10000)%Z then [cp]
  else [(0xD800 + Z.shiftr (cp - 0x10000) 10)%Z;
        (0xDC00 + Z.land (cp - 0x10000) 0x3FF)%Z].

(** The first continuation byte a lead byte admits. *)
Definition secondLo (b0 : Z) : Z :=
  if (b0 =? 0xE0)%Z then 0xA0%Z else if (b0 =? 0xF0)%Z then 0x90%Z else 0x80%Z.
Definition secondHi (b0 : Z) : Z :=
  if (b0 =? 0xED)%Z then 0x9F%Z else if (b0 =? 0xF4)%Z then 0x8F%Z else 0xBF%Z.

(** [toString('utf8')]: every maximal ill-formed run decodes to one
    U+FFFD, and decoding resumes at the byte that broke the sequence. *)
Fixpoint utf8Decode (bs : list Z) : jsstring :=
  match bs with
  | [] => []
  | b0 :: r0 =>
      if (b0 <? 0x80)%Z then b0 :: utf8Decode r0
      else if inRange 0xC2 0xDF b0 then
        match r0 with
        | [] => [0xFFFD%Z]
        | b1 :: r1 =>
            if inRange 0x80 0xBF b1
            then Z.lor (Z.shiftl (Z.land b0 0x1F) 6) (cont b1) :: utf8Decode r1
            else 0xFFFD%Z :: utf8Decode r0
        end
      else if inRange 0xE0 0xEF b0 then
        match r0 with
        | [] => [0xFFFD%Z]
        | b1 :: r1 =>
            if inRange (secondLo b0) (secondHi b0) b1 then
              match r1 with
              | [] => [0xFFFD%Z]
              | b2 :: r2 =>
                  if inRange 0x80 0xBF b2
                  then Z.lor (Z.shiftl (Z.land b0 0x0F) 12)
                         (Z.lor (Z.shiftl (cont b1) 6) (cont b2))
                       :: utf8Decode r2
                  else 0xFFFD%Z :: utf8Decode r1
              end
            else 0xFFFD%Z :: utf8Decode r0
        end
      else if inRange 0xF0 0xF4 b0 then
        match r0 with
        | [] => [0xFFFD%Z]
        | b1 :: r1 =>
            if inRange (secondLo b0) (secondHi b0) b1 then
              match r1 with
              | [] => [0xFFFD%Z]
              | b2 :: r2 =>
                  if inRange 0x80 0xBF b2 then
                    match r2 with
                    | [] => [0xFFFD%Z]
                    | b3 :: r3 =>
                        if inRange 0x80 0xBF b3
                        then codeUnits
                               (Z.lor (Z.shiftl (Z.land b0 0x07) 18)
                                  (Z.lor (Z.shiftl (cont b1) 12)
                                     (Z.lor (Z.shiftl (cont b2) 6) (cont b3))))
                             ++ utf8Decode r3
                        else 0xFFFD%Z :: utf8Decode r2
                    end
                  else 0xFFFD%Z :: utf8Decode r1
              end
            else 0xFFFD%Z :: utf8Decode r0
        end
      else 0xFFFD%Z :: utf8Decode r0
  end.

(** ** The store of byte arrays and the monad of effects *)

(** The store: one byte array per allocation, addressed by position. *)
Abbreviation Heap := (list (list Z)).

(** A Node [Buffer]: a window of [len] bytes, [byteOffset] bytes into the
    byte array at address [buffer]. *)
Record Buffer := mkBuffer { buffer : nat; byteOffset : nat; len : nat }.

Global Instance Buffer_eq_dec : EqDecision Buffer.
Proof. solve_decision. Defined.

Inductive error :=
| AssertionError (msg : string)
| Error (msg : string)
| RangeError (msg : string)
| TypeError (msg : string).

Inductive outcome (A : Type) :=
| Return (a : A)
| Throw (e : error).
Arguments Return {A} a.
Arguments Throw {A} e.

(** A computation reads and writes the store, and returns or throws; what
    it wrote before throwing stays written. *)
Definition M (A : Type) : Type := Heap -> outcome A * Heap.

Definition ret {A} (a : A) : M A := fun h => (Return a, h).
Definition throw {A} (e : error) : M A := fun h => (Throw e, h).
Definition bind {A B} (m : M A) (k : A -> M B) : M B :=
  fun h => match m h with
           | (Return a, h') => k a h'
           | (Throw e, h') => (Throw e, h')
           end.

Declare Scope js_scope.
Delimit Scope js_scope with js.
Notation "x <- m ;; k" := (bind m (fun x => k))
  (at level 100, m at next level, right associativity) : js_scope.
Notation "m ;; k" := (bind m (fun _ => k))
  (at level 100, right associativity) : js_scope.
Local Open Scope js_scope.

(** The byte array at an address; none has been allocated past the end. *)
Definition cell (h : Heap) (a : nat) : list Z := default [] (h !! a).

(** The bytes a buffer shows. *)
Definition contents (h : Heap) (b : Buffer) : list Z :=
  window (byteOffset b) (len b) (cell h (buffer b)).

(** A buffer of the store: its window lies inside an allocated array. *)
Definition allocated (h : Heap) (b : Buffer) : Prop :=
  buffer b < length h /\ byteOffset b + len b <= length (cell h (buffer b)).

Definition read (b : Buffer) : M (list Z) := fun h => (Return (contents h b), h).

(** Store [bs] at index [off] of the buffer; the callers check that it fits. *)
Definition poke (b : Buffer) (off : nat) (bs : list Z) : M unit :=
  fun h => (Return tt,
            <[buffer b := splice (byteOffset b + off) bs (cell h (buffer b))]> h).

(** A new byte array holding [bs], and the buffer that spans it. *)
Definition new (bs : list Z) : M Buffer :=
  fun h => (Return (mkBuffer (length h) 0 (length bs)), h ++ [bs]).

(** ** The Buffer methods the code calls *)

Definition out_of_range : error := RangeError "out of range".

(** [Buffer.alloc(n)]: [n] zero bytes. *)
Definition alloc (n : nat) : M Buffer :=
  fun h => (Return (mkBuffer (length h) 0 n), h ++ [replicate n 0%Z]).

(** [Buffer.from(string)]: the UTF-8 bytes of the string. *)
Definition Buffer_from (s : jsstring) : M Buffer := new (utf8Encode s).

(** [buf.slice(start, end)]: a view on the same memory, clamped to the buffer. *)
Definition slice (b : Buffer) (start stop : nat) : Buffer :=
  let start' := start `min` len b in
  let stop' := stop `min` len b in
  mkBuffer (buffer b) (byteOffset b + start') (stop' - start').

(** [buf.slice(start)] *)
Definition slice_from (b : Buffer) (start : nat) : Buffer := slice b start (len b).

Definition readUInt8 (b : Buffer) (offset : nat) : M Z :=
  if decide (offset + 1 <= len b)
  then bs <- read b;; ret (nth offset bs 0%Z)
  else throw out_of_range.

(** A byte as a two's complement number. *)
Definition signed (v : Z) : Z := if (v <? 128)%Z then v else (v - 256)%Z.

Definition readInt8 (b : Buffer) (offset : nat) : M Z :=
  v <- readUInt8 b offset;; ret (signed v).

Definition readUInt16LE (b : Buffer) (offset : nat) : M Z :=
  if decide (offset + 2 <= len b)
  then bs <- read b;;
       ret (nth offset bs 0 + nth (offset + 1) bs 0 * 256)%Z
  else throw out_of_range.

(** [buf.toString('hex', start, end)] *)
Definition toString_hex (b : Buffer) (start stop : nat) : M jsstring :=
  bs <- read (slice b start stop);; ret (hexEncode bs).

(** [buf.toString('utf8')] *)
Definition toString_utf8 (b : Buffer) : M jsstring :=
  bs <- read b;; ret (utf8Decode bs).

Definition writeUInt8 (b : Buffer) (value : Z) (offset : nat) : M unit :=
  if decide (0 <= value <= 255)%Z then
    if decide (offset + 1 <= len b)
    then poke b offset [value]
    else throw out_of_range
  else throw out_of_range.

(** The two bytes of a 16-bit number, low byte first. *)
Definition uint16LE (value : Z) : list Z :=
  [Z.land value 255; Z.shiftr value 8].

Definition writeUInt16LE (b : Buffer) (value : Z) (offset : nat) : M unit :=
  if decide (0 <= value <= 65535)%Z then
    if decide (offset + 2 <= len b)
    then poke b offset (uint16LE value)
    else throw out_of_range
  else throw out_of_range.

(** [buf.write(string, offset, length, 'hex')] *)
Definition write_hex (b : Buffer) (s : jsstring) (offset n : nat) : M unit :=
  if decide (offset <= len b)
  then poke b offset (hexDecode (n `min` (len b - offset)) s)
  else throw out_of_range.

(** [source.copy(target, targetStart)]: as many bytes as fit. *)
Definition copy (source target : Buffer) (targetStart : nat) : M unit :=
  if decide (targetStart < len target)
  then bs <- read source;;
       poke target targetStart (take (len target - targetStart) bs)
  else ret tt.

(** [buf[index] = value]: the value modulo 256; nothing out of range. *)
Definition set_index (b : Buffer) (index : nat) (value : Z) : M unit :=
  if decide (index < len b)
  then poke b index [(value mod 256)%Z]
  else ret tt.

(** [assert(value, message)] *)
Definition assert (value : bool) (message : string) : M unit :=
  if value then ret tt else throw (AssertionError message).

(** ** The Identity capability *)

Module Identity.

(** Modelled from the spec: the Identity class ([./identity], required by
    [src/peer.js] and passed to the methods of Message) is not among the
    sources. Following section 6 of the specification it exposes an
    [address] and four operations on bytes, which neither throw nor write
    to the buffers they are given. *)
Record t := mk {
  address : jsstring;
  sign : list Z -> list Z;
  verify : list Z -> list Z -> bool;
  encrypt : list Z -> list Z;
  decrypt : list Z -> list Z;
}.

(** A call [identity.f(buf)] that returns bytes: they come in a buffer of
    their own. *)
Definition call (f : list Z -> list Z) (buf : Buffer) : M Buffer :=
  bs <- read buf;; new (f bs).

(** The call [identity.verify(payload, signature)]. *)
Definition call_verify (identity : t) (payload signature : Buffer) : M bool :=
  p <- read payload;; s <- read signature;; ret (verify identity p s).

End Identity.

(** ** src/message.js *)

Module Message.

Definition MODE_PLAIN : Z := 0.
Definition MODE_ENCRYPTED : Z := 1.
Definition MODE_SIGNED : Z := 2.

Record t := mk {
  mode : Z;
  seq : Z;
  from : jsstring;
  to : jsstring;
  ttl : Z;
  command : jsstring;
  payload : Buffer;
  signature : Buffer;
  encrypted : Buffer;
}.

Definition set_payload (v : Buffer) (m : t) : t :=
  mk (mode m) (seq m) (from m) (to m) (ttl m) (command m) v (signature m) (encrypted m).
Definition set_signature (v : Buffer) (m : t) : t :=
  mk (mode m) (seq m) (from m) (to m) (ttl m) (command m) (payload m) v (encrypted m).
Definition set_encrypted (v : Buffer) (m : t) : t :=
  mk (mode m) (seq m) (from m) (to m) (ttl m) (command m) (payload m) (signature m) v.

(** What a caller may hand over as [payload], [signature] or [encrypted]:
    a string, a Buffer, or any other value, of which only the text that
    [JSON.stringify] gives is used. *)
Inductive value :=
| Str (s : jsstring)
| Buf (b : Buffer)
| Other (json : jsstring).

(** The object given to the constructor; [None] is an absent property. *)
Record init := mkInit {
  i_mode : option Z;
  i_from : option jsstring;
  i_to : option jsstring;
  i_seq : option Z;
  i_command : option jsstring;
  i_payload : option value;
  i_ttl : option Z;
  i_signature : option value;
  i_encrypted : option value;
}.

(** A parameter default [x = Buffer.alloc(0)]. *)
Definition or_empty (x : option value) : M value :=
  match x with
  | Some v => ret v
  | None => b <- alloc 0;; ret (Buf b)
  end.

Definition toBuffer (payload : option value) : M Buffer :=
  payload <- or_empty payload;;
  match payload with
  | Str s => Buffer_from s
  | Buf b => ret b
  | Other json => Buffer_from json
  end.

Definition getLengthPrefixed (payload : value) : M Buffer :=
  payload <- toBuffer (Some payload);;
  buf <- alloc (1 + len payload);;
  writeUInt8 buf (Z.of_nat (len payload)) 0;;
  copy payload buf 1;;
  ret buf.

Definition readLengthPrefixed (buf : Buffer) (offset : nat) : M Buffer :=
  length <- readUInt8 buf offset;;
  let result := slice buf (offset + 1) (offset + Z.to_nat length + 1) in
  ret result.

Definition constructor (o : init) : M t :=
  let mode := default (Z.lor MODE_ENCRYPTED MODE_SIGNED) (i_mode o) in
  let from := default [] (i_from o) in
  let to := default [] (i_to o) in
  let seq := default 0%Z (i_seq o) in
  let command := default [] (i_command o) in
  payload <- or_empty (i_payload o);;
  let ttl := default 1%Z (i_ttl o) in
  signature <- or_empty (i_signature o);;
  encrypted <- or_empty (i_encrypted o);;
  payload <- toBuffer (Some payload);;
  signature <- toBuffer (Some signature);;
  encrypted <- toBuffer (Some encrypted);;
  ret (mk mode seq from to ttl command payload signature encrypted).

(** The Message itself as the constructor's argument. *)
Definition as_init (m : t) : init :=
  mkInit (Some (mode m)) (Some (from m)) (Some (to m)) (Some (seq m))
    (Some (command m)) (Some (Buf (payload m))) (Some (ttl m))
    (Some (Buf (signature m))) (Some (Buf (encrypted m))).

Definition hasEncryptFlag (this : t) : bool :=
  negb (Z.land (mode this) MODE_ENCRYPTED =? 0)%Z.

Definition hasSignFlag (this : t) : bool :=
  negb (Z.land (mode this) MODE_SIGNED =? 0)%Z.

(** What a method returns: nothing, or its receiver. *)
Inductive returned := Undefined | This.

(** [identity && identity.address === address] *)
Definition is_identity_of (identity : option Identity.t) (address : jsstring) : bool :=
  match identity with
  | Some identity => bool_decide (Identity.address identity = address)
  | None => false
  end.

(** The payload in force. *)
Definition active (this : t) : Buffer :=
  if hasEncryptFlag this then encrypted this else payload this.

Definition sign (identity : option Identity.t) (this : t) : M (returned * t) :=
  if negb (hasSignFlag this) then ret (Undefined, this)
  else
    assert (is_identity_of identity (from this)) "Invalid identity to sign with";;
    match identity with
    | Some identity =>
        let payload := active this in
        signature <- Identity.call (Identity.sign identity) payload;;
        ret (This, set_signature signature this)
    | None => throw (TypeError "identity is undefined")
    end.

Definition verify (identity : option Identity.t) (this : t) : M (returned * t) :=
  if negb (hasSignFlag this) then ret (Undefined, this)
  else
    assert (is_identity_of identity (from this)) "Invalid identity to verify with";;
    match identity with
    | Some identity =>
        let payload := active this in
        ok <- Identity.call_verify identity payload (signature this);;
        if negb ok then throw (Error "Invalid signature")
        else ret (This, this)
    | None => throw (TypeError "identity is undefined")
    end.

Definition encrypt (identity : option Identity.t) (this : t) : M (returned * t) :=
  if negb (hasEncryptFlag this) then ret (Undefined, this)
  else
    assert (is_identity_of identity (to this)) "Invalid identity to encrypt with";;
    match identity with
    | Some identity =>
        encrypted <- Identity.call (Identity.encrypt identity) (payload this);;
        ret (This, set_encrypted encrypted this)
    | None => throw (TypeError "identity is undefined")
    end.

Definition decrypt (identity : option Identity.t) (this : t) : M (returned * t) :=
  if negb (hasEncryptFlag this) then ret (Undefined, this)
  else
    assert (is_identity_of identity (to this)) "Invalid identity to decrypt with";;
    match identity with
    | Some identity =>
        payload <- Identity.call (Identity.decrypt identity) (encrypted this);;
        ret (This, set_payload payload this)
    | None => throw (TypeError "identity is undefined")
    end.

(** A string in a condition: the empty string is false. *)
Definition truthy (s : jsstring) : bool :=
  match s with [] => false | _ :: _ => true end.

Definition getBuffer (this : t) : M Buffer :=
  assert (truthy (from this)) "Unset from";;
  if hasSignFlag this && (len (signature this) =? 0) then
    throw (Error "Invalid signature")
  else if hasEncryptFlag this && (len (encrypted this) =? 0) then
    throw (Error "Invalid encrypted")
  else
    let payload := active this in
    commandBuf <- getLengthPrefixed (Str (command this));;
    buf <- alloc (88 + len commandBuf + len payload);;
    let offset := 0 in
    writeUInt8 buf (mode this) offset;;
    let offset := offset + 1 in
    writeUInt8 buf (ttl this) offset;;
    let offset := offset + 1 in
    writeUInt16LE buf (mode this) offset;;
    let offset := offset + 2 in
    write_hex buf (from this) offset 10;;
    let offset := offset + 10 in
    (if truthy (to this) then write_hex buf (to this) offset 10 else ret tt);;
    let offset := offset + 10 in
    copy (signature this) buf offset;;
    let offset := offset + 64 in
    copy commandBuf buf offset;;
    let offset := offset + len commandBuf in
    copy payload buf offset;;
    ret buf.

Definition fromBuffer (buf : Buffer) : M t :=
  let offset := 0 in
  mode <- readInt8 buf offset;;
  let offset := offset + 1 in
  ttl <- readUInt8 buf offset;;
  let offset := offset + 1 in
  seq <- readUInt16LE buf offset;;
  let offset := offset + 2 in
  from <- toString_hex buf offset (offset + 10);;
  let offset := offset + 10 in
  to <- toString_hex buf offset (offset + 10);;
  let offset := offset + 10 in
  let signature := slice buf offset (offset + 64) in
  let offset := offset + 64 in
  command <- readLengthPrefixed buf offset;;
  command <- toString_utf8 command;;
  let offset := offset + (length command + 1) in
  let payload := slice_from buf offset in
  message <- constructor
    (mkInit (Some mode) (Some from) (Some to) (Some seq) (Some command)
       None (Some ttl) (Some (Buf signature)) None);;
  if hasEncryptFlag message
  then ret (set_encrypted payload message)
  else ret (set_payload payload message).

Definition clone (this : t) : M t := constructor (as_init this).

End Message.

(** ** src/peer.js *)

Module Peer.

(** [new Date(timestamp)] of a number of milliseconds: a time value, or
    an invalid date beyond 8.64e15 ms from the epoch. *)
Inductive Date := TimeValue (ms : Z) | InvalidDate.

Definition Date_new (timestamp : Z) : Date :=
  if decide (Z.abs timestamp <= 8640000000000000)%Z
  then TimeValue timestamp else InvalidDate.

Record Dialer := mkDialer { proto : jsstring }.
Record Node := mkNode { dialers : list Dialer }.

Section WithIdentity.

(** Modelled from the spec: the constructor of the Identity class, which
    Peer extends, is not among the sources. [super(pubKey)] is taken as a
    function that derives the identity, and so its address, from the key. *)
Variable PubKey : Type.
Variable NetworkId : Type.
Variable Identity_new : PubKey -> Identity.t.

(** A Peer: the Identity it extends and its own properties. *)
Record t := mk {
  super : Identity.t;
  networkId : NetworkId;
  urls : list jsstring;
  timestamp : Date;
}.

(** [this.address], inherited. *)
Definition address (this : t) : jsstring := Identity.address (super this).

(** The object given to the constructor. *)
Record init := mkInit {
  i_networkId : NetworkId;
  i_address : jsstring;
  i_pubKey : PubKey;
  i_urls : list jsstring;
  i_timestamp : Z;
}.

Definition constructor (o : init) : outcome t :=
  let this := Identity_new (i_pubKey o) in
  if negb (bool_decide (i_address o = Identity.address this))
  then Throw (Error "Mismatch address")
  else Return (mk this (i_networkId o) (i_urls o) (Date_new (i_timestamp o))).

(** [Array.prototype.find] in a condition: a dialer found is true,
    [undefined] is false. *)
Definition found (d : option Dialer) : bool :=
  match d with Some _ => true | None => false end.

(** Returns the urls, and leaves the receiver and the node as they are
    after the call. *)
Definition getEligibleUrls (node : Node) (this : t) : list jsstring * (t * Node) :=
  (List.filter
     (fun url =>
        found (List.find (fun dialer => startsWith url (proto dialer ++ js ":"))
                 (dialers node)))
     (urls this),
   (this, node)).

(** The announcement given to [update]. *)
Record peerInfo := mkInfo { p_urls : list jsstring; p_timestamp : Z }.

Definition update (info : peerInfo) (this : t) : t :=
  mk (super this) (networkId this) (p_urls info) (Date_new (p_timestamp info)).

End WithIdentity.

Arguments mk {NetworkId}.
Arguments super {NetworkId}.
Arguments networkId {NetworkId}.
Arguments urls {NetworkId}.
Arguments timestamp {NetworkId}.
Arguments address {NetworkId}.
Arguments mkInit {PubKey NetworkId}.
Arguments constructor {PubKey NetworkId}.
Arguments getEligibleUrls {NetworkId}.
Arguments update {NetworkId}.

End Peer.

(** ** The vocabulary of the properties *)

(** Every buffer of the store keeps its bytes, and stays a buffer of it. *)
Definition preserved (h h' : Heap) : Prop :=
  forall b, allocated h b -> allocated h' b /\ contents h' b = contents h b.

(** [l] cut or filled with zeros to [n] bytes. *)
Definition pad (n : nat) (l : list Z) : list Z :=
  take n l ++ replicate (n - length l) 0%Z.

(** Strings of code units below 128 are their own UTF-8. *)
Definition isAscii (s : jsstring) : Prop := Forall (fun c => 0 <= c < 128)%Z s.

(** The digits that [toString('hex')] writes. *)
Definition isLowerHex (c : Z) : Prop :=
  (48 <= c <= 57)%Z \/ (97 <= c <= 102)%Z.

(** An address as the data model has it: ten bytes in lowercase hex. *)
Definition isAddress (s : jsstring) : Prop :=
  length s = 20 /\ Forall isLowerHex s.

Global Instance isLowerHex_dec c : Decision (isLowerHex c).
Proof. unfold isLowerHex. apply _. Defined.

Global Instance isAddress_dec s : Decision (isAddress s).
Proof. unfold isAddress. apply _. Defined.

Global Instance isAscii_dec s : Decision (isAscii s).
Proof. unfold isAscii. apply _. Defined.

(** The address that an absent [to] decodes to. *)
Definition zero_address : jsstring := js "00000000000000000000".

Module Layout.
Import Message.

(** The six routing fields. *)
Definition routing (m : t) : Z * Z * Z * jsstring * jsstring * jsstring :=
  (mode m, ttl m, seq m, from m, to m, command m).

(** The Message is one that [getBuffer] accepts: [from] is set, a
    signature is there when SIGNED is set, a ciphertext when ENCRYPTED is. *)
Definition encodable (m : t) : Prop :=
  from m <> [] /\
  (hasSignFlag m = true -> len (signature m) <> 0) /\
  (hasEncryptFlag m = true -> len (encrypted m) <> 0).

(** The ranges of the data model: [mode] and [ttl] are bytes, the command
    takes at most 255 bytes. *)
Definition in_range (m : t) : Prop :=
  (0 <= mode m <= 255)%Z /\ (0 <= ttl m <= 255)%Z /\
  length (utf8Encode (command m)) <= 255.

(** The bytes of the frame: the fixed header of 88 bytes, the command
    behind its length, and the payload. *)
Definition frame (m : t) (sig pay : list Z) : list Z :=
  [mode m; ttl m] ++ uint16LE (mode m)
    ++ pad 10 (hexDecode 10 (from m))
    ++ pad 10 (hexDecode 10 (to m))
    ++ pad 64 sig
    ++ (Z.of_nat (length (utf8Encode (command m))) :: utf8Encode (command m))
    ++ pay.

End Layout.

(** A url a node can dial: it begins with the [proto] of one of the
    node's dialers and a colon. *)
Definition eligible (node : Peer.Node) (url : jsstring) : Prop :=
  exists dialer rest,
    dialer ∈ Peer.dialers node /\ url = Peer.proto dialer ++ js ":" ++ rest.

(** ** Sample data *)

Module Sample.

(** An identity that signs by reversing the bytes, and encrypts likewise. *)
Definition alice : Identity.t :=
  Identity.mk (js "00112233445566778899")
    (fun p => rev p)
    (fun p s => bool_decide (s = rev p))
    (fun p => rev p)
    (fun p => rev p).

Definition bob : Identity.t :=
  Identity.mk (js "aabbccddeeff00112233")
    (fun p => rev p)
    (fun p s => bool_decide (s = rev p))
    (fun p => rev p)
    (fun p => rev p).

(** A store of three byte arrays: a payload, a signature and a ciphertext. *)
Definition store : Heap := [[1; 2; 3]; [9; 9]; [3; 2; 1]]%Z.

(** A message from alice to bob over that store, with the given mode. *)
Definition message (mode : Z) : Message.t :=
  Message.mk mode 7 (Identity.address alice) (Identity.address bob) 1
    (js "ping") (mkBuffer 0 0 3) (mkBuffer 1 0 2) (mkBuffer 2 0 3).

(** A message as [new Message({ from })] leaves it, in a store that holds
    its three empty buffers. *)
Definition fresh : Message.t :=
  Message.mk 3 0 (Identity.address alice) [] 1 [] (mkBuffer 0 0 0)
    (mkBuffer 1 0 0) (mkBuffer 2 0 0).
Definition fresh_store : Heap := [[]; []; []].

(** A plain message without a sender, and one with ENCRYPTED set that has
    not been encrypted, over the same store. *)
Definition anonymous : Message.t :=
  Message.mk 0 0 [] [] 1 [] (mkBuffer 0 0 0) (mkBuffer 1 0 0) (mkBuffer 2 0 0).
Definition unencrypted : Message.t :=
  Message.mk 1 0 (Identity.address alice) [] 1 [] (mkBuffer 0 0 0)
    (mkBuffer 1 0 0) (mkBuffer 2 0 0).

(** A plain message whose command is one accented letter, U+00E9. *)
Definition accented : Message.t :=
  Message.mk 0 7 (Identity.address alice) (Identity.address bob) 1
    [0xE9%Z] (mkBuffer 0 0 3) (mkBuffer 1 0 2) (mkBuffer 2 0 3).

(** A plain broadcast from alice: [to] is empty. *)
Definition broadcast : Message.t :=
  Message.mk 0 7 (Identity.address alice) [] 1 (js "ping")
    (mkBuffer 0 0 3) (mkBuffer 1 0 2) (mkBuffer 2 0 3).

(** An Identity class whose address is the key itself. *)
Definition keyed (pubKey : jsstring) : Identity.t :=
  Identity.mk pubKey (fun p => rev p) (fun p s => bool_decide (s = rev p))
    (fun p => rev p) (fun p => rev p).

Definition announcement (address : jsstring) : Peer.init jsstring Z :=
  Peer.mkInit 1%Z address (js "00112233445566778899")
    [js "tcp:1.2.3.4:9"; js "ws:host/path"] 1500000000000%Z.

Definition peer : Peer.t Z :=
  Peer.mk (keyed (js "00112233445566778899")) 1%Z
    [js "tcp:1.2.3.4:9"; js "ws:host/path"] (Peer.TimeValue 1500000000000).

Definition node : Peer.Node := Peer.mkNode [Peer.mkDialer (js "tcp")].

End Sample.

(** ** More of src/message.js *)

Module MessageStatic.
Import Message.

(** What [Message.from] is given: a Message, or the object that the
    constructor takes. *)
Inductive argument :=
| IsMessage (message : t)
| IsObject (message : init).

(** [Message.from(message)] *)
Definition from (message : argument) : M t :=
  match message with
  | IsMessage message => ret message
  | IsObject message => constructor message
  end.

End MessageStatic.

(** ** More vocabulary *)

(** Numbers that are bytes. *)
Definition isBytes (l : list Z) : Prop := Forall (fun b => 0 <= b < 256)%Z l.

Global Instance isBytes_dec l : Decision (isBytes l).
Proof. unfold isBytes. apply _. Defined.

(** The three buffers of a Message are buffers of the store. *)
Definition well_formed (h : Heap) (m : Message.t) : Prop :=
  allocated h (Message.payload m) /\
  allocated h (Message.signature m) /\
  allocated h (Message.encrypted m).






(** One node dials whatever protocol the other does. *)
Definition dials_all_of (n2 n1 : Peer.Node) : Prop :=
  forall d, d ∈ Peer.dialers n1 ->
    exists d', d' ∈ Peer.dialers n2 /\ Peer.proto d' = Peer.proto d.

(** The peer after a sequence of announcements, the oldest first. *)
Definition updated {NetworkId : Type} (infos : list Peer.peerInfo)
    (p : Peer.t NetworkId) : Peer.t NetworkId :=
  fold_left (fun q info => Peer.update info q) infos p.

(** ** More sample data *)

Module MoreSample.

(** A frame of 94 bytes: a plain message with ttl 1, no addresses, no
    signature, the command "hi" and the payload 7 7 7. *)
Definition wire : list Z :=
  [0; 1; 0; 0]%Z ++ replicate 84 0%Z ++ [2; 104; 105; 7; 7; 7]%Z.

Definition wire_store : Heap := [wire].
Definition wire_buffer : Buffer := mkBuffer 0 0 94.


(** A sender with alice's address whose signatures have 64 bytes: the
    bytes signed, reversed, cut or filled with zeros. *)
Definition sender : Identity.t :=
  Identity.mk (js "00112233445566778899")
    (fun p => pad 64 (rev p))
    (fun p s => bool_decide (s = pad 64 (rev p)))
    (fun p => rev p)
    (fun p => rev p).

(** Two later announcements of a peer. *)
Definition first_info : Peer.peerInfo :=
  Peer.mkInfo [js "ws:host/path"] 1600000000000%Z.
Definition second_info : Peer.peerInfo :=
  Peer.mkInfo [js "tcp:5.6.7.8:9"; js "udp:5.6.7.8:9"] 1700000000000%Z.

(** A node that dials tcp twice over, and udp. *)
Definition bigger_node : Peer.Node :=
  Peer.mkNode [Peer.mkDialer (js "udp"); Peer.mkDialer (js "tcp");
               Peer.mkDialer (js "tcp")].

End MoreSample.

(** * Properties *)

(** ** The platform functions on known values *)

Example utf8_of_accent :
  utf8Encode [0xE9%Z] = [0xC3; 0xA9]%Z /\ utf8Decode [0xC3; 0xA9]%Z = [0xE9%Z].
Proof. split; reflexivity. Qed.

Example utf8_of_euro :
  utf8Encode [0x20AC%Z] = [0xE2; 0x82; 0xAC]%Z
  /\ utf8Decode [0xE2; 0x82; 0xAC]%Z = [0x20AC%Z].
Proof. split; reflexivity. Qed.

Example utf8_of_surrogate_pair :
  utf8Encode [0xD83D; 0xDE00]%Z = [0xF0; 0x9F; 0x98; 0x80]%Z
  /\ utf8Decode [0xF0; 0x9F; 0x98; 0x80]%Z = [0xD83D; 0xDE00]%Z.
Proof. split; by vm_compute. Qed.

Example utf8_of_lone_surrogate :
  utf8Encode [0xD83D; 0x41]%Z = [0xEF; 0xBF; 0xBD; 0x41]%Z
  /\ utf8Decode [0xFF; 0x41]%Z = [0xFFFD; 0x41]%Z.
Proof. split; reflexivity. Qed.

Example hex_of_bytes :
  hexDecode 10 (js "0aFf") = [10; 255]%Z
  /\ hexDecode 10 (js "0azz11") = [10%Z]
  /\ hexDecode 1 (js "0aff") = [10%Z]
  /\ hexEncode [10; 255]%Z = js "0aff".
Proof. split_and!; reflexivity. Qed.

Example startsWith_scheme :
  startsWith (js "tcp:1.2.3.4:9") (js "tcp:") = true
  /\ startsWith (js "ws:host/path") (js "tcp:") = false
  /\ startsWith (js "tc") (js "tcp:") = false.
Proof. split_and!; reflexivity. Qed.

(** A slice shows the memory of the buffer it was cut from. *)
Example slice_shares_memory :
  let b := mkBuffer 0 0 3 in
  contents Sample.store (slice b 1 3) = [2; 3]%Z
  /\ contents (snd (set_index (slice b 1 3) 0 7 Sample.store)) b = [1; 7; 3]%Z.
Proof. split; reflexivity. Qed.

(** ** The store *)

Lemma cell_app_l (h l : Heap) a : a < length h -> cell (h ++ l) a = cell h a.
Proof. intros Ha. unfold cell. by rewrite lookup_app_l. Qed.

Lemma cell_app_r (h l : Heap) k : cell (h ++ l) (length h + k) = cell l k.
Proof. unfold cell. by rewrite lookup_app_r, Nat.add_sub' by lia. Qed.

Lemma cell_insert_eq (h : Heap) a x : a < length h -> cell (<[a:=x]> h) a = x.
Proof. intros Ha. unfold cell. by rewrite list_lookup_insert_eq. Qed.

Lemma contents_app_l (h l : Heap) b :
  buffer b < length h -> contents (h ++ l) b = contents h b.
Proof. intros Hb. unfold contents. by rewrite cell_app_l. Qed.

Lemma allocated_app_l (h l : Heap) b : allocated h b -> allocated (h ++ l) b.
Proof.
  intros [Hb Hn]. split.
  - rewrite length_app. lia.
  - by rewrite cell_app_l.
Qed.

Lemma contents_length h b : allocated h b -> length (contents h b) = len b.
Proof.
  intros [_ Hn]. unfold contents, window.
  rewrite length_take, length_drop. lia.
Qed.

Lemma contents_new (h : Heap) bs :
  contents (h ++ [bs]) (mkBuffer (length h) 0 (length bs)) = bs.
Proof.
  unfold contents, window; simpl.
  replace (length h) with (length h + 0) at 1 by lia.
  rewrite cell_app_r. unfold cell; simpl. by rewrite drop_0, firstn_all.
Qed.

Lemma preserved_app (h l : Heap) : preserved h (h ++ l).
Proof.
  intros b Hb. split; [by apply allocated_app_l|].
  apply contents_app_l, Hb.
Qed.

(** ** The crypto-flag state machine *)

Module MessageFacts.
Import Message Layout.

Lemma active_set_signature s m : active (set_signature s m) = active m.
Proof. reflexivity. Qed.

(** What [sign] does when it has work to do. *)
Lemma sign_runs id m h :
  hasSignFlag m = true ->
  Identity.address id = from m ->
  sign (Some id) m h =
    (Return (This,
             set_signature
               (mkBuffer (length h) 0
                  (length (Identity.sign id (contents h (active m))))) m),
     h ++ [Identity.sign id (contents h (active m))]).
Proof.
  intros Hs Ha. unfold sign. rewrite Hs; simpl.
  unfold bind, assert. rewrite bool_decide_eq_true_2 by done. reflexivity.
Qed.

Lemma encrypt_runs id m h :
  hasEncryptFlag m = true ->
  Identity.address id = to m ->
  encrypt (Some id) m h =
    (Return (This,
             set_encrypted
               (mkBuffer (length h) 0
                  (length (Identity.encrypt id (contents h (payload m))))) m),
     h ++ [Identity.encrypt id (contents h (payload m))]).
Proof.
  intros Hs Ha. unfold encrypt. rewrite Hs; simpl.
  unfold bind, assert. rewrite bool_decide_eq_true_2 by done. reflexivity.
Qed.

Lemma decrypt_runs id m h :
  hasEncryptFlag m = true ->
  Identity.address id = to m ->
  decrypt (Some id) m h =
    (Return (This,
             set_payload
               (mkBuffer (length h) 0
                  (length (Identity.decrypt id (contents h (encrypted m))))) m),
     h ++ [Identity.decrypt id (contents h (encrypted m))]).
Proof.
  intros Hs Ha. unfold decrypt. rewrite Hs; simpl.
  unfold bind, assert. rewrite bool_decide_eq_true_2 by done. reflexivity.
Qed.

Lemma verify_runs id m h :
  hasSignFlag m = true ->
  Identity.address id = from m ->
  verify (Some id) m h =
    if Identity.verify id (contents h (active m)) (contents h (signature m))
    then (Return (This, m), h)
    else (Throw (Error "Invalid signature"), h).
Proof.
  intros Hs Ha. unfold verify. rewrite Hs; simpl.
  unfold bind, assert. rewrite bool_decide_eq_true_2 by done. simpl.
  by destruct (Identity.verify _ _ _).
Qed.

(** C3. For a Message with SIGNED set and an identity whose address is the
    message's [from], whose [verify] accepts what its [sign] produces:
    [sign] returns, the signature it leaves is the identity's signature of
    the payload in force ([encrypted] when ENCRYPTED is set, [payload]
    otherwise), and [verify] on the signed message returns as well. *)
Theorem sign_then_verify (id : Identity.t) (m : t) (h : Heap) :
  hasSignFlag m = true ->
  Identity.address id = from m ->
  (forall p, Identity.verify id p (Identity.sign id p) = true) ->
  allocated h (active m) ->
  exists m' h',
    sign (Some id) m h = (Return (This, m'), h') /\
    contents h' (signature m') =
      Identity.sign id
        (contents h (if hasEncryptFlag m then encrypted m else payload m)) /\
    verify (Some id) m' h' = (Return (This, m'), h').
Proof.
  intros Hs Ha Hlaw Hact.
  eexists _, _. split; [by apply sign_runs|].
  assert (Hsig : contents (h ++ [Identity.sign id (contents h (active m))])
            (mkBuffer (length h) 0
               (length (Identity.sign id (contents h (active m)))))
          = Identity.sign id (contents h (active m))) by apply contents_new.
  split; [exact Hsig|].
  rewrite verify_runs by done.
  rewrite active_set_signature. simpl signature. rewrite Hsig.
  rewrite contents_app_l by apply Hact.
  by rewrite Hlaw.
Qed.

(** C4. For a Message with ENCRYPTED set and an identity whose address is
    the message's [to], whose [decrypt] undoes its [encrypt]: [encrypt] and
    then [decrypt] return and leave in [payload] the bytes it held before.
    With an identity of another address either call fails with its
    invalid-identity assertion. *)
Theorem encrypt_then_decrypt (id : Identity.t) (m : t) (h : Heap) :
  hasEncryptFlag m = true ->
  (Identity.address id = to m ->
   (forall p, Identity.decrypt id (Identity.encrypt id p) = p) ->
   exists m1 h1 m2 h2,
     encrypt (Some id) m h = (Return (This, m1), h1) /\
     decrypt (Some id) m1 h1 = (Return (This, m2), h2) /\
     contents h2 (payload m2) = contents h (payload m)) /\
  (Identity.address id <> to m ->
   encrypt (Some id) m h =
     (Throw (AssertionError "Invalid identity to encrypt with"), h) /\
   decrypt (Some id) m h =
     (Throw (AssertionError "Invalid identity to decrypt with"), h)).
Proof.
  intros He. split.
  - intros Ha Hlaw.
    eexists _, _, _, _. split; [by apply encrypt_runs|].
    split; [by apply decrypt_runs|].
    simpl payload. simpl encrypted.
    by rewrite !contents_new, Hlaw.
  - intros Ha. unfold encrypt, decrypt. rewrite He; simpl.
    unfold bind, assert. by rewrite bool_decide_eq_false_2.
Qed.

(** C5. With SIGNED unset, [sign] and [verify] return without a value and
    leave the message and the store as they were, whatever identity they
    are given, if any; with ENCRYPTED unset so do [encrypt] and [decrypt]. *)
Theorem flag_unset_noop (identity : option Identity.t) (m : t) (h : Heap) :
  (hasSignFlag m = false ->
   sign identity m h = (Return (Undefined, m), h) /\
   verify identity m h = (Return (Undefined, m), h)) /\
  (hasEncryptFlag m = false ->
   encrypt identity m h = (Return (Undefined, m), h) /\
   decrypt identity m h = (Return (Undefined, m), h)).
Proof.
  split; intros Hf.
  - unfold sign, verify. by rewrite Hf.
  - unfold encrypt, decrypt. by rewrite Hf.
Qed.

Lemma asserted {A} (c : bool) msg (k : M A) h r h' :
  (assert c msg;; k) h = (Return r, h') -> c = true /\ k h = (Return r, h').
Proof. unfold bind, assert. destruct c; simpl; [done|]. intros [=]. Qed.

Lemma preserved_refl h : preserved h h.
Proof. by intros b Hb. Qed.

Lemma sign_frame identity m h r m' h' :
  sign identity m h = (Return (r, m'), h') ->
  routing m' = routing m /\ payload m' = payload m /\
  encrypted m' = encrypted m /\ preserved h h'.
Proof.
  unfold sign. destruct (hasSignFlag m); simpl.
  - intros [Hc H]%asserted. destruct identity as [id|]; [|done].
    revert H. unfold bind, Identity.call, read, new, ret.
    intros [= <- <- <-]. split_and!; try done; apply preserved_app.
  - intros [= <- <- <-]. split_and!; try done; apply preserved_refl.
Qed.

Lemma verify_frame identity m h r m' h' :
  verify identity m h = (Return (r, m'), h') -> m' = m /\ h' = h.
Proof.
  unfold verify. destruct (hasSignFlag m); simpl.
  - intros [Hc H]%asserted. destruct identity as [id|]; [|done].
    revert H. unfold bind, Identity.call_verify, read, ret, throw.
    simpl. destruct (Identity.verify id _ _); simpl; [|done].
    by intros [= <- <- <-].
  - by intros [= <- <- <-].
Qed.

Lemma encrypt_frame identity m h r m' h' :
  encrypt identity m h = (Return (r, m'), h') ->
  routing m' = routing m /\ payload m' = payload m /\
  signature m' = signature m /\ preserved h h'.
Proof.
  unfold encrypt. destruct (hasEncryptFlag m); simpl.
  - intros [Hc H]%asserted. destruct identity as [id|]; [|done].
    revert H. unfold bind, Identity.call, read, new, ret.
    intros [= <- <- <-]. split_and!; try done; apply preserved_app.
  - intros [= <- <- <-]. split_and!; try done; apply preserved_refl.
Qed.

Lemma decrypt_frame identity m h r m' h' :
  decrypt identity m h = (Return (r, m'), h') ->
  routing m' = routing m /\ encrypted m' = encrypted m /\
  signature m' = signature m /\ preserved h h'.
Proof.
  unfold decrypt. destruct (hasEncryptFlag m); simpl.
  - intros [Hc H]%asserted. destruct identity as [id|]; [|done].
    revert H. unfold bind, Identity.call, read, new, ret.
    intros [= <- <- <-]. split_and!; try done; apply preserved_app.
  - intros [= <- <- <-]. split_and!; try done; apply preserved_refl.
Qed.

(** C10. When [sign], [verify], [encrypt] or [decrypt] returns, the routing
    fields are as before. [sign] leaves [payload] and [encrypted] alone,
    [verify] leaves everything alone, [encrypt] leaves [payload] and
    [signature] alone, [decrypt] leaves [encrypted] and [signature] alone;
    and every buffer of the store keeps its bytes. *)
Theorem crypto_frame (identity : option Identity.t) (m m' : t) (h h' : Heap)
    (r : returned) :
  (sign identity m h = (Return (r, m'), h') ->
   routing m' = routing m /\ payload m' = payload m /\
   encrypted m' = encrypted m /\ preserved h h') /\
  (verify identity m h = (Return (r, m'), h') -> m' = m /\ h' = h) /\
  (encrypt identity m h = (Return (r, m'), h') ->
   routing m' = routing m /\ payload m' = payload m /\
   signature m' = signature m /\ preserved h h') /\
  (decrypt identity m h = (Return (r, m'), h') ->
   routing m' = routing m /\ encrypted m' = encrypted m /\
   signature m' = signature m /\ preserved h h').
Proof.
  split; [apply sign_frame|].
  split; [apply verify_frame|].
  split; [apply encrypt_frame|apply decrypt_frame].
Qed.

Lemma sign_then_verify_sample :
  exists m' h',
    sign (Some Sample.alice) (Sample.message 2) Sample.store
      = (Return (This, m'), h') /\
    contents h' (signature m') = [3; 2; 1]%Z /\
    verify (Some Sample.alice) m' h' = (Return (This, m'), h').
Proof.
  destruct (sign_then_verify Sample.alice (Sample.message 2) Sample.store)
    as (m' & h' & H1 & H2 & H3).
  - reflexivity.
  - reflexivity.
  - intros p. simpl. by apply bool_decide_eq_true_2.
  - split; simpl; lia.
  - exists m', h'. split; [exact H1|]. split; [exact H2|exact H3].
Defined.

Lemma encrypt_then_decrypt_sample :
  (exists m1 h1 m2 h2,
     encrypt (Some Sample.bob) (Sample.message 1) Sample.store
       = (Return (This, m1), h1) /\
     decrypt (Some Sample.bob) m1 h1 = (Return (This, m2), h2) /\
     contents h2 (payload m2) = [1; 2; 3]%Z) /\
  encrypt (Some Sample.alice) (Sample.message 1) Sample.store =
    (Throw (AssertionError "Invalid identity to encrypt with"), Sample.store) /\
  decrypt (Some Sample.alice) (Sample.message 1) Sample.store =
    (Throw (AssertionError "Invalid identity to decrypt with"), Sample.store).
Proof.
  split.
  - apply (encrypt_then_decrypt Sample.bob (Sample.message 1) Sample.store).
    + reflexivity.
    + reflexivity.
    + intros p. apply rev_involutive.
  - apply (encrypt_then_decrypt Sample.alice (Sample.message 1) Sample.store).
    + reflexivity.
    + vm_compute. discriminate.
Defined.

Lemma flag_unset_noop_sample :
  (sign (Some Sample.bob) (Sample.message 0) Sample.store
     = (Return (Undefined, Sample.message 0), Sample.store) /\
   verify (Some Sample.bob) (Sample.message 0) Sample.store
     = (Return (Undefined, Sample.message 0), Sample.store)) /\
  (encrypt None (Sample.message 0) Sample.store
     = (Return (Undefined, Sample.message 0), Sample.store) /\
   decrypt None (Sample.message 0) Sample.store
     = (Return (Undefined, Sample.message 0), Sample.store)).
Proof.
  split.
  - apply (flag_unset_noop (Some Sample.bob) (Sample.message 0) Sample.store).
    reflexivity.
  - apply (flag_unset_noop None (Sample.message 0) Sample.store).
    reflexivity.
Defined.

Lemma crypto_frame_sample :
  (routing (set_signature (mkBuffer 3 0 3) (Sample.message 3))
     = routing (Sample.message 3) /\
   payload (set_signature (mkBuffer 3 0 3) (Sample.message 3))
     = payload (Sample.message 3) /\
   encrypted (set_signature (mkBuffer 3 0 3) (Sample.message 3))
     = encrypted (Sample.message 3) /\
   preserved Sample.store (Sample.store ++ [[1; 2; 3]%Z])) /\
  (routing (set_encrypted (mkBuffer 3 0 3) (Sample.message 1))
     = routing (Sample.message 1) /\
   payload (set_encrypted (mkBuffer 3 0 3) (Sample.message 1))
     = payload (Sample.message 1) /\
   signature (set_encrypted (mkBuffer 3 0 3) (Sample.message 1))
     = signature (Sample.message 1) /\
   preserved Sample.store (Sample.store ++ [[3; 2; 1]%Z])) /\
  (routing (set_payload (mkBuffer 3 0 3) (Sample.message 1))
     = routing (Sample.message 1) /\
   encrypted (set_payload (mkBuffer 3 0 3) (Sample.message 1))
     = encrypted (Sample.message 1) /\
   signature (set_payload (mkBuffer 3 0 3) (Sample.message 1))
     = signature (Sample.message 1) /\
   preserved Sample.store (Sample.store ++ [[1; 2; 3]%Z])).
Proof.
  split; [|split].
  - (* sign, and verify on what it leaves *)
    pose proof (crypto_frame (Some Sample.alice)
                  (set_signature (mkBuffer 3 0 3) (Sample.message 3))
                  (set_signature (mkBuffer 3 0 3) (Sample.message 3))
                  (Sample.store ++ [[1; 2; 3]%Z])
                  (Sample.store ++ [[1; 2; 3]%Z]) This) as (_ & Hverify & _).
    destruct (Hverify eq_refl) as [_ _].
    apply (proj1 (crypto_frame (Some Sample.alice) (Sample.message 3)
                    (set_signature (mkBuffer 3 0 3) (Sample.message 3))
                    Sample.store (Sample.store ++ [[1; 2; 3]%Z]) This)).
    reflexivity.
  - pose proof (crypto_frame (Some Sample.bob) (Sample.message 1)
                  (set_encrypted (mkBuffer 3 0 3) (Sample.message 1))
                  Sample.store (Sample.store ++ [[3; 2; 1]%Z]) This)
      as (_ & _ & Hencrypt & _).
    apply Hencrypt. reflexivity.
  - pose proof (crypto_frame (Some Sample.bob) (Sample.message 1)
                  (set_payload (mkBuffer 3 0 3) (Sample.message 1))
                  Sample.store (Sample.store ++ [[1; 2; 3]%Z]) This)
      as (_ & _ & _ & Hdecrypt).
    apply Hdecrypt. reflexivity.
Defined.

(** ** [clone] *)

Lemma window_insert off n i x (l : list Z) :
  i < n ->
  window off n (<[off + i := x]> l) = <[i := x]> (window off n l).
Proof.
  intros Hi. unfold window.
  rewrite drop_insert_ge by lia.
  rewrite take_insert_lt by lia.
  by rewrite Nat.add_sub'.
Qed.

Lemma splice_one i x (l : list Z) : i < length l -> splice i [x] l = <[i := x]> l.
Proof.
  intros Hi. unfold splice. simpl.
  rewrite Nat.add_1_r. symmetry. by apply insert_take_drop.
Qed.

(** A write through a buffer of the store is a write to its bytes. *)
Lemma set_index_contents h b index value :
  allocated h b -> index < len b ->
  exists h', set_index b index value h = (Return tt, h') /\
    contents h' b = <[index := (value mod 256)%Z]> (contents h b).
Proof.
  intros [Hb Hn] Hi. unfold set_index. rewrite decide_True by done.
  eexists. split; [reflexivity|].
  unfold contents. rewrite cell_insert_eq by done.
  rewrite splice_one by lia. by apply window_insert.
Qed.

Lemma clone_returns m h : clone m h = (Return m, h).
Proof. by destruct m. Qed.

(** C7, as the code has it. [clone] returns a Message whose nine fields
    are those of the original and allocates nothing: the three buffer
    fields are the original's own buffers, so that a byte written through
    the clone's [payload] is the byte then read through the original's. *)
Theorem clone_is_shallow (m : t) (h : Heap) :
  exists c,
    clone m h = (Return c, h) /\
    mode c = mode m /\ ttl c = ttl m /\ seq c = seq m /\
    from c = from m /\ to c = to m /\ command c = command m /\
    payload c = payload m /\ signature c = signature m /\
    encrypted c = encrypted m /\
    forall index value,
      allocated h (payload m) -> index < len (payload m) ->
      exists h',
        set_index (payload c) index value h = (Return tt, h') /\
        contents h' (payload m) =
          <[index := (value mod 256)%Z]> (contents h (payload m)).
Proof.
  exists m. split; [apply clone_returns|].
  split_and!; try done.
  intros index value Ha Hi. by apply set_index_contents.
Qed.

(** C7 fails as stated: the copy is not deep. In the sample store the
    payload of the message reads 1 2 3; after [clone], storing 9 at index 0
    of the clone's payload makes the original's payload read 9 2 3. *)
Lemma clone_not_deep :
  exists c h1 h2,
    clone (Sample.message 0) Sample.store = (Return c, h1) /\
    set_index (payload c) 0 9 h1 = (Return tt, h2) /\
    contents h1 (payload (Sample.message 0)) = [1; 2; 3]%Z /\
    contents h2 (payload (Sample.message 0)) = [9; 2; 3]%Z.
Proof. eexists _, _, _. split_and!; reflexivity. Qed.

Lemma clone_is_shallow_sample :
  exists c h',
    clone (Sample.message 0) Sample.store = (Return c, Sample.store) /\
    set_index (payload c) 0 9 Sample.store = (Return tt, h') /\
    contents h' (payload (Sample.message 0)) = [9; 2; 3]%Z.
Proof.
  destruct (clone_is_shallow (Sample.message 0) Sample.store)
    as (c & Hc & _ & _ & _ & _ & _ & _ & _ & _ & _ & Hw).
  destruct (Hw 0 9%Z) as (h' & Hs & Hr).
  - split; simpl; lia.
  - simpl; lia.
  - exists c, h'. split; [exact Hc|]. split; [exact Hs|exact Hr].
Defined.

End MessageFacts.

(** ** Writing into the newest byte array *)

Lemma bind_Return {A B} (m : M A) (k : A -> M B) h a h' :
  m h = (Return a, h') -> bind m k h = k a h'.
Proof. intros H. unfold bind. by rewrite H. Qed.

Lemma poke_last (H : Heap) c n off bs :
  poke (mkBuffer (length H) 0 n) off bs (H ++ [c]) =
    (Return tt, H ++ [splice off bs c]).
Proof.
  unfold poke; simpl. f_equal.
  replace (length H) with (length H + 0) by lia.
  rewrite cell_app_r, insert_app_r. done.
Qed.

Lemma writeUInt8_last (H : Heap) c n v off :
  (0 <= v <= 255)%Z -> off + 1 <= n ->
  writeUInt8 (mkBuffer (length H) 0 n) v off (H ++ [c]) =
    (Return tt, H ++ [splice off [v] c]).
Proof.
  intros Hv Hoff. unfold writeUInt8.
  rewrite !decide_True by done. apply poke_last.
Qed.

Lemma writeUInt16LE_last (H : Heap) c n v off :
  (0 <= v <= 65535)%Z -> off + 2 <= n ->
  writeUInt16LE (mkBuffer (length H) 0 n) v off (H ++ [c]) =
    (Return tt, H ++ [splice off [Z.land v 255; Z.shiftr v 8] c]).
Proof.
  intros Hv Hoff. unfold writeUInt16LE.
  rewrite !decide_True by done. apply poke_last.
Qed.

Lemma write_hex_last (H : Heap) c n s off k :
  off <= n ->
  write_hex (mkBuffer (length H) 0 n) s off k (H ++ [c]) =
    (Return tt, H ++ [splice off (hexDecode (k `min` (n - off)) s) c]).
Proof.
  intros Hoff. unfold write_hex.
  rewrite decide_True by done. apply poke_last.
Qed.

Lemma splice_nil off (c : list Z) : splice off [] c = c.
Proof. unfold splice. simpl. by rewrite Nat.add_0_r, take_drop. Qed.

Lemma copy_last (H : Heap) c n src off :
  buffer src < length H ->
  copy src (mkBuffer (length H) 0 n) off (H ++ [c]) =
    (Return tt, H ++ [splice off (take (n - off) (contents H src)) c]).
Proof.
  intros Hsrc. unfold copy; simpl. case_decide.
  - unfold bind, read. rewrite contents_app_l by done. apply poke_last.
  - replace (n - off) with 0 by lia. by rewrite take_0, splice_nil.
Qed.

(** Replacing a segment of a byte array. *)
Lemma splice_at off (pre old bs post l : list Z) :
  l = pre ++ old ++ post ->
  off = length pre -> length old = length bs ->
  splice off bs l = pre ++ bs ++ post.
Proof.
  intros -> -> Hlen. unfold splice.
  rewrite take_app_length. f_equal. f_equal.
  rewrite <- Hlen, <- length_app, app_assoc. apply drop_app_length.
Qed.

Lemma length_pad n l : length (pad n l) = n.
Proof. unfold pad. rewrite length_app, length_take, length_replicate. lia. Qed.

Lemma splice_zeros off k (pre bs post l : list Z) :
  l = pre ++ replicate k 0%Z ++ post ->
  off = length pre -> length bs <= k ->
  splice off bs l = pre ++ pad k bs ++ post.
Proof.
  intros -> Hoff Hk. unfold pad. rewrite take_ge by lia.
  replace k with (length bs + (k - length bs)) at 1 by lia.
  rewrite replicate_add, <- !app_assoc.
  eapply splice_at; [done|done|]. by rewrite length_replicate.
Qed.

Lemma length_hexDecode n s : length (hexDecode n s) <= n.
Proof.
  revert s. induction n as [|n IH]; intros s; simpl; [lia|].
  destruct s as [|a [|b s]]; simpl; try lia.
  destruct (unhex a), (unhex b); simpl; try lia.
  specialize (IH s). lia.
Qed.

Module EncodeFacts.
Import Message Layout.

Lemma toBuffer_Str s h :
  toBuffer (Some (Str s)) h =
    (Return (mkBuffer (length h) 0 (length (utf8Encode s))), h ++ [utf8Encode s]).
Proof. reflexivity. Qed.

Lemma getLengthPrefixed_Str s h :
  length (utf8Encode s) <= 255 ->
  getLengthPrefixed (Str s) h =
    (Return (mkBuffer (length h + 1) 0 (1 + length (utf8Encode s))),
     h ++ [utf8Encode s; Z.of_nat (length (utf8Encode s)) :: utf8Encode s]).
Proof.
  intros HL. unfold getLengthPrefixed.
  erewrite bind_Return by apply toBuffer_Str.
  generalize dependent (utf8Encode s). intros cmd HL.
  cbn [len].
  unfold bind at 1. unfold alloc at 1.
  erewrite bind_Return; cycle 1.
  { apply writeUInt8_last; lia. }
  erewrite bind_Return; cycle 1.
  { apply copy_last. rewrite length_app; simpl; lia. }
  unfold ret. rewrite length_app; simpl. f_equal. rewrite <- app_assoc. simpl.
  f_equal. f_equal. f_equal.
  rewrite contents_new, Nat.sub_0_r, take_ge by done.
  rewrite (splice_at 0 [] [0%Z] [Z.of_nat (length cmd)]
             (replicate (length cmd) 0%Z) _) by done.
  rewrite (splice_at 1 [Z.of_nat (length cmd)] (replicate (length cmd) 0%Z) cmd [] _)
    by (by rewrite ?length_replicate, ?app_nil_r).
  by rewrite app_nil_r.
Qed.

Lemma alloc_runs n h :
  alloc n h = (Return (mkBuffer (length h) 0 n), h ++ [replicate n 0%Z]).
Proof. reflexivity. Qed.

Lemma hexDecode_nil n : hexDecode n [] = [].
Proof. by destruct n. Qed.

Lemma write_to_last (H : Heap) c n s off k :
  off <= n ->
  (if truthy s then write_hex (mkBuffer (length H) 0 n) s off k else ret tt)
    (H ++ [c]) =
    (Return tt, H ++ [splice off (hexDecode (k `min` (n - off)) s) c]).
Proof.
  intros Hoff. destruct s as [|a s]; simpl truthy; cbv iota.
  - by rewrite hexDecode_nil, splice_nil.
  - by apply write_hex_last.
Qed.

Lemma image_frame (a b c d : Z) (F T sig cmdbuf pay : list Z) n :
  n = 88 + length cmdbuf + length pay ->
  length F <= 10 -> length T <= 10 ->
  splice (88 + length cmdbuf) (take (n - (88 + length cmdbuf)) pay)
    (splice 88 (take (n - 88) cmdbuf)
       (splice 24 (take (n - 24) sig)
          (splice 14 T
             (splice 4 F
                (splice 2 [c; d]
                   (splice 1 [b]
                      (splice 0 [a] (replicate n 0%Z))))))))
  = [a; b; c; d] ++ pad 10 F ++ pad 10 T ++ pad 64 sig ++ cmdbuf ++ pay.
Proof.
  intros Hn HF HT.
  set (rest := replicate (n - 24) 0%Z).
  assert (Hzero : replicate n 0%Z =
            [] ++ [0%Z] ++ [0%Z] ++ [0%Z; 0%Z] ++ replicate 10 0%Z
               ++ replicate 10 0%Z ++ rest).
  { unfold rest. replace n with (4 + (10 + (10 + (n - 24)))) at 1 by lia.
    by rewrite !replicate_add. }
  rewrite Hzero.
  erewrite (splice_at 0 [] [0%Z] [a]); [|reflexivity|done|done].
  erewrite (splice_at 1 [a] [0%Z] [b]); [|reflexivity|done|done].
  erewrite (splice_at 2 [a; b] [0%Z; 0%Z] [c; d]); [|reflexivity|done|done].
  erewrite (splice_zeros 4 10 [a; b; c; d] F); [|reflexivity|done|done].
  erewrite (splice_zeros 14 10 ([a; b; c; d] ++ pad 10 F) T);
    [|by rewrite <- app_assoc|by rewrite length_app, length_pad|done].
  set (pre := ([a; b; c; d] ++ pad 10 F) ++ pad 10 T ++ rest).
  assert (Hpre : length pre = n).
  { unfold pre, rest.
    rewrite !length_app, !length_pad, length_replicate. simpl. lia. }
  assert (H24 : take 24 pre = [a; b; c; d] ++ pad 10 F ++ pad 10 T).
  { unfold pre. rewrite app_assoc, <- (app_assoc [a;b;c;d]).
    apply take_app_length'.
    rewrite !length_app, !length_pad. simpl. lia. }
  assert (Hdrop : forall k, drop (24 + k) pre = replicate (n - 24 - k) 0%Z).
  { intros k. unfold pre. rewrite app_assoc, <- drop_drop.
    rewrite drop_app_length'
      by (rewrite !length_app, !length_pad; simpl; lia).
    unfold rest. by rewrite drop_replicate. }
  set (sig' := take (n - 24) sig).
  set (X := splice 24 sig' pre).
  assert (HX : length X = n).
  { unfold X, splice. rewrite Hdrop, H24.
    rewrite !length_app, !length_pad, length_replicate.
    assert (length sig' <= n - 24) by (unfold sig'; rewrite length_take; lia).
    simpl. lia. }
  assert (H88 : take 88 X = [a; b; c; d] ++ pad 10 F ++ pad 10 T ++ pad 64 sig).
  { unfold X, splice. rewrite Hdrop, H24.
    rewrite !app_assoc. rewrite <- (app_assoc _ sig').
    rewrite take_app, (take_ge (_ ++ pad 10 T))
      by (rewrite !length_app, !length_pad; simpl; lia).
    f_equal.
    rewrite !length_app, !length_pad. simpl length.
    replace (88 - (4 + 10 + 10)) with 64 by lia.
    unfold pad, sig'. rewrite take_app, take_take, take_replicate, length_take.
    f_equal; [f_equal; lia|f_equal; lia]. }
  replace (take (n - 88) cmdbuf) with cmdbuf by (rewrite take_ge; [done|lia]).
  replace (take (n - (88 + length cmdbuf)) pay) with pay
    by (rewrite take_ge; [done|lia]).
  unfold splice at 1 2.
  rewrite (drop_ge _ (88 + length cmdbuf + length pay))
    by (rewrite !length_app, length_take, length_drop; lia).
  rewrite app_nil_r, (app_assoc (take 88 X)).
  rewrite take_app_length' by (rewrite length_app, length_take; lia).
  rewrite H88. by rewrite <- !app_assoc.
Qed.

Lemma contents_commandBuf (h : Heap) (x y : list Z) :
  contents (h ++ [x; y]) (mkBuffer (length h + 1) 0 (length y)) = y.
Proof.
  unfold contents, window; simpl.
  rewrite cell_app_r. unfold cell; simpl. by rewrite drop_0, firstn_all.
Qed.

Lemma getBuffer_runs m h :
  encodable m -> in_range m ->
  allocated h (signature m) -> allocated h (active m) ->
  getBuffer m h =
    (Return (mkBuffer (length h + 2) 0
               (88 + (1 + length (utf8Encode (command m))) + len (active m))),
     h ++ [utf8Encode (command m);
           Z.of_nat (length (utf8Encode (command m))) :: utf8Encode (command m);
           frame m (contents h (signature m)) (contents h (active m))]).
Proof.
  intros (Hfrom & Hsig & Henc) (Hmode & Httl & Hcmd) Has Hap.
  unfold getBuffer.
  destruct (from m) as [|f0 fs] eqn:Ef; [done|]. simpl truthy.
  erewrite bind_Return by reflexivity.
  replace (hasSignFlag m && (len (signature m) =? 0)) with false; cycle 1.
  { destruct (hasSignFlag m); [|done]. simpl. symmetry.
    apply Nat.eqb_neq. by apply Hsig. }
  replace (hasEncryptFlag m && (len (encrypted m) =? 0)) with false; cycle 1.
  { destruct (hasEncryptFlag m); [|done]. simpl. symmetry.
    apply Nat.eqb_neq. by apply Henc. }
  cbv zeta.
  erewrite bind_Return by (by apply getLengthPrefixed_Str).
  cbn [len].
  set (cmd := utf8Encode (command m)) in *.
  set (cmdbuf := Z.of_nat (length cmd) :: cmd).
  set (H := h ++ [cmd; cmdbuf]).
  assert (HH : length H = length h + 2).
  { unfold H. rewrite length_app. simpl. lia. }
  set (n := 88 + (1 + length cmd) + len (active m)).
  erewrite bind_Return by apply alloc_runs.
  change (0 + 1 + 1 + 2 + 10 + 10 + 64) with 88.
  change (0 + 1 + 1 + 2 + 10 + 10) with 24.
  change (0 + 1 + 1 + 2 + 10) with 14.
  change (0 + 1 + 1 + 2) with 4.
  change (0 + 1 + 1) with 2.
  change (0 + 1) with 1.
  erewrite bind_Return by (apply writeUInt8_last; [done|unfold n; lia]).
  erewrite bind_Return by (apply writeUInt8_last; [done|unfold n; lia]).
  erewrite bind_Return by (apply writeUInt16LE_last; [lia|unfold n; lia]).
  erewrite bind_Return by (apply write_hex_last; unfold n; lia).
  erewrite bind_Return by (apply write_to_last; unfold n; lia).
  erewrite bind_Return by (apply copy_last; destruct Has; lia).
  erewrite bind_Return by (apply copy_last; simpl; lia).
  erewrite bind_Return by (apply copy_last; destruct Hap; lia).
  unfold ret. rewrite HH. f_equal.
  unfold H. rewrite <- app_assoc. cbn [app]. do 3 f_equal.
  fold H.
  assert (Hc : contents H (mkBuffer (length h + 1) 0 (1 + length cmd)) = cmdbuf).
  { apply (contents_commandBuf h cmd cmdbuf). }
  rewrite Hc.
  unfold H. rewrite !contents_app_l by (destruct Has, Hap; lia).
  replace (10 `min` (n - 4)) with 10 by (unfold n; lia).
  replace (10 `min` (n - 14)) with 10 by (unfold n; lia).
  assert (Hlen : length cmdbuf = 1 + length cmd) by done.
  rewrite <- Hlen.
  unfold frame. fold cmd. fold cmdbuf. rewrite Ef.
  f_equal. apply image_frame.
  - unfold n. rewrite contents_length by done. lia.
  - apply length_hexDecode.
  - apply length_hexDecode.
Qed.

Lemma length_frame m sig pay :
  length (frame m sig pay) =
    88 + (1 + length (utf8Encode (command m))) + length pay.
Proof.
  unfold frame. rewrite !length_app, !length_pad. simpl. lia.
Qed.

Lemma contents_frame (h : Heap) (x y c : list Z) n :
  n = length c ->
  contents (h ++ [x; y; c]) (mkBuffer (length h + 2) 0 n) = c.
Proof.
  intros ->. unfold contents, window; simpl.
  rewrite cell_app_r. unfold cell; simpl. by rewrite drop_0, firstn_all.
Qed.

(** What [getBuffer] returns to a Message it accepts. *)
Lemma getBuffer_returns m h :
  encodable m -> in_range m ->
  allocated h (signature m) -> allocated h (active m) ->
  exists buf h',
    getBuffer m h = (Return buf, h') /\
    len buf = 88 + 1 + length (utf8Encode (command m)) + len (active m) /\
    contents h' buf = frame m (contents h (signature m)) (contents h (active m)) /\
    ~ allocated h buf /\ preserved h h'.
Proof.
  intros Hok Hrange Hsig Hact.
  eexists _, _. split; [by apply getBuffer_runs|].
  split; [simpl; lia|]. split.
  - apply contents_frame. rewrite length_frame, contents_length by done. lia.
  - split; [|apply preserved_app]. intros [Hb _]. simpl in Hb. lia.
Qed.

(** C6, as the code has it. [getBuffer] throws the unset-from assertion
    when [from] is empty; with [from] set it throws the invalid-signature
    error when SIGNED is set and [signature] is empty; with [from] set and
    that check passed it throws the invalid-encrypted error when ENCRYPTED
    is set and [encrypted] is empty. The store is then as it was. When no
    check fails, for a Message within the ranges of the data model,
    [getBuffer] returns a buffer new to the store, of exactly
    88 + 1 + byteLength(command) + length(payload in force) bytes, and
    every buffer of the store keeps its bytes. *)
Theorem getBuffer_checks (m : t) (h : Heap) :
  (from m = [] ->
   getBuffer m h = (Throw (AssertionError "Unset from"), h)) /\
  (from m <> [] -> hasSignFlag m = true -> len (signature m) = 0 ->
   getBuffer m h = (Throw (Error "Invalid signature"), h)) /\
  (from m <> [] -> hasSignFlag m = false \/ len (signature m) <> 0 ->
   hasEncryptFlag m = true -> len (encrypted m) = 0 ->
   getBuffer m h = (Throw (Error "Invalid encrypted"), h)) /\
  (encodable m -> in_range m ->
   allocated h (signature m) ->
   allocated h (if hasEncryptFlag m then encrypted m else payload m) ->
   exists buf h',
     getBuffer m h = (Return buf, h') /\
     len buf =
       88 + 1 + length (utf8Encode (command m))
       + len (if hasEncryptFlag m then encrypted m else payload m) /\
     length (contents h' buf) = len buf /\
     ~ allocated h buf /\ preserved h h').
Proof.
  split_and!.
  - intros Hf. unfold getBuffer. by rewrite Hf.
  - intros Hf Hs Hl. unfold getBuffer.
    destruct (from m); [done|]. by rewrite Hs, Hl.
  - intros Hf Hs He Hl. unfold getBuffer.
    destruct (from m); [done|]. rewrite He, Hl.
    destruct Hs as [->|Hs]; [done|].
    apply Nat.eqb_neq in Hs. rewrite Hs.
    by destruct (hasSignFlag m).
  - intros Hok Hrange Hsig Hact.
    destruct (getBuffer_returns m h Hok Hrange Hsig Hact)
      as (buf & h' & Hrun & Hlen & Hc & Hnew & Hpres).
    exists buf, h'. split_and!; try done.
    rewrite Hc, length_frame, contents_length, Hlen by done. lia.
Qed.

(** C6 fails as stated. A message as [new Message({ from })] leaves it has
    ENCRYPTED set and an empty [encrypted], and [from] set; [getBuffer]
    throws the invalid-signature error, not the invalid-encrypted one,
    because SIGNED is set too and [signature] is empty. *)
Lemma getBuffer_checks_signature_first :
  from Sample.fresh <> [] /\
  hasEncryptFlag Sample.fresh = true /\
  len (encrypted Sample.fresh) = 0 /\
  getBuffer Sample.fresh Sample.fresh_store =
    (Throw (Error "Invalid signature"), Sample.fresh_store) /\
  getBuffer Sample.fresh Sample.fresh_store <>
    (Throw (Error "Invalid encrypted"), Sample.fresh_store).
Proof. split_and!; done. Qed.

(** C1, as the code has it. The two bytes at offset 2 of the buffer that
    [getBuffer] returns are the little-endian 16 bits of [mode]: [seq] is
    not written. *)
Theorem getBuffer_seq_offset (m : t) (h : Heap) :
  encodable m -> in_range m ->
  allocated h (signature m) -> allocated h (active m) ->
  exists buf h',
    getBuffer m h = (Return buf, h') /\
    window 2 2 (contents h' buf) = uint16LE (mode m).
Proof.
  intros Hok Hrange Hsig Hact.
  destruct (getBuffer_returns m h Hok Hrange Hsig Hact)
    as (buf & h' & Hrun & _ & Hc & _).
  exists buf, h'. split; [done|]. by rewrite Hc.
Qed.

Lemma encodable_sample : encodable (Sample.message 0).
Proof. split_and!; [done|intros [=]|intros [=]]. Defined.

Lemma in_range_sample : in_range (Sample.message 0).
Proof. split_and!; [simpl; lia..|vm_compute; lia]. Defined.

Lemma getBuffer_checks_sample :
  getBuffer Sample.anonymous Sample.fresh_store =
    (Throw (AssertionError "Unset from"), Sample.fresh_store) /\
  getBuffer Sample.fresh Sample.fresh_store =
    (Throw (Error "Invalid signature"), Sample.fresh_store) /\
  getBuffer Sample.unencrypted Sample.fresh_store =
    (Throw (Error "Invalid encrypted"), Sample.fresh_store) /\
  exists buf h',
    getBuffer (Sample.message 0) Sample.store = (Return buf, h') /\
    len buf = 96 /\ length (contents h' buf) = len buf.
Proof.
  split_and!.
  - apply (getBuffer_checks Sample.anonymous Sample.fresh_store). reflexivity.
  - apply (getBuffer_checks Sample.fresh Sample.fresh_store);
      [discriminate|reflexivity|reflexivity].
  - apply (getBuffer_checks Sample.unencrypted Sample.fresh_store);
      [discriminate|by left|reflexivity|reflexivity].
  - destruct (getBuffer_checks (Sample.message 0) Sample.store)
      as (_ & _ & _ & H).
    destruct H as (buf & h' & Hrun & Hlen & Hc & _).
    + apply encodable_sample.
    + apply in_range_sample.
    + split; simpl; lia.
    + split; simpl; lia.
    + exists buf, h'. split; [exact Hrun|]. split; [exact Hlen|exact Hc].
Defined.

Lemma getBuffer_seq_offset_sample :
  seq (Sample.message 0) = 7%Z /\
  uint16LE (seq (Sample.message 0)) = [7; 0]%Z /\
  exists buf h',
    getBuffer (Sample.message 0) Sample.store = (Return buf, h') /\
    window 2 2 (contents h' buf) = [0; 0]%Z.
Proof.
  split; [reflexivity|]. split; [reflexivity|].
  destruct (getBuffer_seq_offset (Sample.message 0) Sample.store)
    as (buf & h' & Hrun & Hseq).
  - apply encodable_sample.
  - apply in_range_sample.
  - split; simpl; lia.
  - split; simpl; lia.
  - exists buf, h'. split; [exact Hrun|exact Hseq].
Defined.

End EncodeFacts.

(** ** Reading a frame *)

Lemma contents_slice (h : Heap) b start stop :
  contents h (slice b start stop) =
    window (start `min` len b) (stop `min` len b - start `min` len b)
      (contents h b).
Proof.
  unfold contents, window, slice; simpl.
  rewrite skipn_firstn_comm, take_take, drop_drop.
  f_equal. lia.
Qed.

Lemma readUInt8_runs b offset h :
  offset + 1 <= len b ->
  readUInt8 b offset h = (Return (nth offset (contents h b) 0%Z), h).
Proof. intros Ho. unfold readUInt8. by rewrite decide_True. Qed.

Lemma readUInt16LE_runs b offset h :
  offset + 2 <= len b ->
  readUInt16LE b offset h =
    (Return (nth offset (contents h b) 0 + nth (offset + 1) (contents h b) 0 * 256)%Z,
     h).
Proof. intros Ho. unfold readUInt16LE. by rewrite decide_True. Qed.

Lemma contents_length_le h b : length (contents h b) <= len b.
Proof. unfold contents, window. rewrite length_take. lia. Qed.

Module DecodeFacts.
Import Message Layout.

Lemma constructor_decoded mode from to seq command ttl sig h :
  constructor
    (mkInit (Some mode) (Some from) (Some to) (Some seq) (Some command)
       None (Some ttl) (Some (Buf sig)) None) h =
    (Return (mk mode seq from to ttl command (mkBuffer (length h) 0 0) sig
               (mkBuffer (length h + 1) 0 0)),
     h ++ [[]; []]).
Proof.
  unfold constructor, bind; simpl.
  unfold ret. by rewrite <- app_assoc, length_app.
Qed.

(** What [fromBuffer] makes of a buffer of at least 89 bytes. *)
Lemma fromBuffer_runs b h :
  89 <= len b ->
  let c := contents h b in
  let command := utf8Decode (window 89 (Z.to_nat (nth 88 c 0%Z)) c) in
  let rest := slice_from b (88 + (length command + 1)) in
  let message :=
    mk (signed (nth 0 c 0%Z)) (nth 2 c 0 + nth 3 c 0 * 256)%Z
      (hexEncode (window 4 10 c)) (hexEncode (window 14 10 c))
      (nth 1 c 0%Z) command
      (mkBuffer (length h) 0 0) (slice b 24 88) (mkBuffer (length h + 1) 0 0) in
  fromBuffer b h =
    (Return (if hasEncryptFlag message
             then set_encrypted rest message
             else set_payload rest message),
     h ++ [[]; []]).
Proof.
  intros Hlen c command rest message.
  unfold fromBuffer. cbv zeta.
  change (0 + 1 + 1 + 2 + 10 + 10 + 64) with 88.
  change (0 + 1 + 1 + 2 + 10 + 10) with 24.
  change (0 + 1 + 1 + 2 + 10) with 14.
  change (0 + 1 + 1 + 2) with 4.
  change (0 + 1 + 1) with 2.
  change (0 + 1) with 1.
  unfold readInt8.
  erewrite bind_Return; cycle 1.
  { erewrite bind_Return by (apply readUInt8_runs; lia). reflexivity. }
  erewrite bind_Return by (apply readUInt8_runs; lia).
  erewrite bind_Return by (apply readUInt16LE_runs; lia).
  unfold toString_hex.
  erewrite bind_Return by reflexivity.
  erewrite bind_Return by reflexivity.
  unfold readLengthPrefixed.
  erewrite bind_Return; cycle 1.
  { erewrite bind_Return by (apply readUInt8_runs; lia). reflexivity. }
  unfold toString_utf8.
  erewrite bind_Return by reflexivity.
  rewrite !contents_slice.
  fold c.
  replace (4 `min` len b) with 4 by lia.
  replace (14 `min` len b) with 14 by lia.
  replace (24 `min` len b) with 24 by lia.
  replace ((88 + 1) `min` len b) with 89 by lia.
  change (14 - 4) with 10. change (24 - 14) with 10. change (2 + 1) with 3.
  assert (Hw : window 89
                 ((88 + Z.to_nat (nth 88 c 0%Z) + 1) `min` len b - 89) c
               = window 89 (Z.to_nat (nth 88 c 0%Z)) c).
  { pose proof (contents_length_le h b) as Hc. fold c in Hc.
    unfold window.
    destruct (decide (89 + Z.to_nat (nth 88 c 0%Z) <= len b)).
    - f_equal. lia.
    - rewrite !take_ge; [done|rewrite length_drop; lia..]. }
  rewrite Hw. fold command.
  erewrite bind_Return by apply constructor_decoded.
  fold (signed (nth 0 c 0%Z)). fold message. fold rest.
  by destruct (hasEncryptFlag message).
Qed.

End DecodeFacts.

(** ** Round trip *)

Lemma window_at (l pre x post : list Z) off n :
  l = pre ++ x ++ post -> off = length pre -> n = length x ->
  window off n l = x.
Proof.
  intros -> -> ->. unfold window.
  by rewrite drop_app_length, take_app_length.
Qed.

Lemma nth_at (l pre post : list Z) x off d :
  l = pre ++ x :: post -> off = length pre -> nth off l d = x.
Proof. intros -> ->. apply nth_middle. Qed.

Lemma pad_full n l : length l = n -> pad n l = l.
Proof.
  intros <-. unfold pad. by rewrite firstn_all, Nat.sub_diag, app_nil_r.
Qed.

Lemma utf8Encode_ascii s : isAscii s -> utf8Encode s = s.
Proof.
  induction 1 as [|c s Hc _ IH]; simpl; [done|].
  destruct (Z.ltb_spec c 128); [|lia]. by rewrite IH.
Qed.

Lemma utf8Decode_ascii s : isAscii s -> utf8Decode s = s.
Proof.
  induction 1 as [|c s Hc _ IH]; simpl; [done|].
  destruct (Z.ltb_spec c 128); [|lia]. by rewrite IH.
Qed.

Lemma unhex_lower c :
  isLowerHex c -> exists x, unhex c = Some x /\ (0 <= x < 16)%Z /\ hexdigit x = c.
Proof.
  intros Hc. unfold unhex, hexdigit.
  destruct (Z.leb_spec 48 c), (Z.leb_spec c 57); simpl.
  - eexists. split; [done|]. split; [lia|].
    destruct (Z.ltb_spec (c - 48) 10); lia.
  - destruct (Z.leb_spec 97 c), (Z.leb_spec c 102); simpl;
      try (exfalso; unfold isLowerHex in Hc; lia).
    eexists. split; [done|]. split; [lia|].
    destruct (Z.ltb_spec (c - 87) 10); lia.
  - exfalso; unfold isLowerHex in Hc; lia.
  - exfalso; unfold isLowerHex in Hc; lia.
Qed.

Lemma hex_roundtrip n s :
  length s = 2 * n -> Forall isLowerHex s ->
  length (hexDecode n s) = n /\ hexEncode (hexDecode n s) = s.
Proof.
  revert s. induction n as [|n IH]; intros s Hlen Hs.
  - destruct s; [done|simpl in Hlen; lia].
  - destruct s as [|a [|b s]]; simpl in Hlen; try lia.
    apply Forall_cons in Hs as [Ha Hs]. apply Forall_cons in Hs as [Hb Hs].
    destruct (unhex_lower a Ha) as (x & Hx & Hxr & Hxd).
    destruct (unhex_lower b Hb) as (y & Hy & Hyr & Hyd).
    destruct (IH s) as [IHl IHe]; [lia|done|].
    simpl. rewrite Hx, Hy. simpl. rewrite IHl. split; [done|].
    unfold hexEncode in *. simpl. rewrite IHe.
    replace ((x * 16 + y) / 16)%Z with x by (apply Z.div_unique with y; lia).
    replace ((x * 16 + y) mod 16)%Z with y by (apply Z.mod_unique with x; lia).
    by rewrite Hxd, Hyd.
Qed.

Module RoundTrip.
Import Message Layout EncodeFacts DecodeFacts.

(** Run [getBuffer] and then [fromBuffer] on a closed message and store,
    and give what they return as the witnesses of the goal. *)
Ltac run_both m h :=
  let r := eval vm_compute in (getBuffer m h) in
  match r with
  | (Return ?buf, ?h1) =>
      let r2 := eval vm_compute in (fromBuffer buf h1) in
      match r2 with
      | (Return ?m', ?h2) => exists buf, h1, m', h2
      end
  end.

(** C2, as the code has it. Take a Message with ENCRYPTED and SIGNED
    unset, [mode] below 128 and [ttl] a byte, whose [from] is twenty
    lowercase hex digits, whose [to] is empty or twenty lowercase hex
    digits, and whose command is ASCII of at most 255 characters. Then
    [getBuffer] returns, [fromBuffer] of its buffer returns, and the
    decoded message has the [mode], [ttl], [from], [command] and the
    payload bytes of the original; its [to] is the original's when that
    is set, and twenty zeros when it is empty. *)
Theorem decode_encode (m : t) (h : Heap) :
  hasEncryptFlag m = false -> hasSignFlag m = false ->
  (0 <= mode m < 128)%Z -> (0 <= ttl m <= 255)%Z ->
  isAddress (from m) -> (to m = [] \/ isAddress (to m)) ->
  isAscii (command m) -> length (command m) <= 255 ->
  allocated h (payload m) -> allocated h (signature m) ->
  exists buf h1 m' h2,
    getBuffer m h = (Return buf, h1) /\
    fromBuffer buf h1 = (Return m', h2) /\
    mode m' = mode m /\ ttl m' = ttl m /\ from m' = from m /\
    to m' = (if truthy (to m) then to m else zero_address) /\
    command m' = command m /\
    contents h2 (payload m') = contents h (payload m).
Proof.
  intros He Hs Hmode Httl [Hfl Hfh] Hto Hascii Hclen Hp Hsig.
  assert (Hact : active m = payload m) by (unfold active; by rewrite He).
  assert (Hcmd : utf8Encode (command m) = command m)
    by by apply utf8Encode_ascii.
  assert (Hok : encodable m).
  { split_and!; [by destruct (from m)|by rewrite Hs|by rewrite He]. }
  assert (Hrange : in_range m).
  { unfold in_range. rewrite Hcmd. lia. }
  assert (Hap : allocated h (active m)) by by rewrite Hact.
  pose proof (getBuffer_runs m h Hok Hrange Hsig Hap) as Henc.
  rewrite Hact, Hcmd in Henc.
  set (pay := contents h (payload m)) in *.
  set (c := frame m (contents h (signature m)) pay) in *.
  set (h1 := h ++ [command m; Z.of_nat (length (command m)) :: command m; c]) in *.
  set (n := 88 + (1 + length (command m)) + len (payload m)) in *.
  set (buf := mkBuffer (length h + 2) 0 n) in *.
  assert (Hpay : length pay = len (payload m)) by by apply contents_length.
  assert (Hn : n = length c).
  { unfold c. rewrite length_frame, Hcmd, Hpay. done. }
  assert (Hc : contents h1 buf = c) by by apply contents_frame.
  assert (Hlen : 89 <= len buf) by (simpl; unfold n; lia).
  pose proof (fromBuffer_runs buf h1 Hlen) as Hdec. cbv zeta in Hdec.
  rewrite Hc in Hdec.
  (* the layout of the frame *)
  set (F := pad 10 (hexDecode 10 (from m))).
  set (T := pad 10 (hexDecode 10 (to m))).
  set (S := pad 64 (contents h (signature m))).
  assert (Hframe : c = [mode m; ttl m; Z.land (mode m) 255; Z.shiftr (mode m) 8]
            ++ F ++ T ++ S
            ++ (Z.of_nat (length (command m)) :: command m) ++ pay).
  { unfold c, frame. by rewrite Hcmd. }
  assert (HF : length F = 10) by apply length_pad.
  assert (HT : length T = 10) by apply length_pad.
  assert (HS : length S = 64) by apply length_pad.
  assert (H0 : nth 0 c 0%Z = mode m) by by rewrite Hframe.
  assert (H1 : nth 1 c 0%Z = ttl m) by by rewrite Hframe.
  assert (H4 : window 4 10 c = F).
  { eapply (window_at _ [_; _; _; _]); [exact Hframe|done|done]. }
  assert (H14 : window 14 10 c = T).
  { eapply (window_at _ ([_; _; _; _] ++ F)).
    - rewrite Hframe. by rewrite <- app_assoc.
    - rewrite length_app, HF. done.
    - done. }
  assert (H88 : nth 88 c 0%Z = Z.of_nat (length (command m))).
  { eapply (nth_at _ ([_; _; _; _] ++ F ++ T ++ S)).
    - rewrite Hframe. by rewrite <- !app_assoc.
    - rewrite !length_app, HF, HT, HS. done. }
  assert (H89 : window 89 (length (command m)) c = command m).
  { eapply (window_at _ ([_; _; _; _] ++ F ++ T ++ S ++ [_])).
    - rewrite Hframe. rewrite <- !app_assoc. reflexivity.
    - rewrite !length_app, HF, HT, HS. done.
    - done. }
  assert (Hrest : window (89 + length (command m)) (len (payload m)) c = pay).
  { eapply (window_at _ ([_; _; _; _] ++ F ++ T ++ S ++ _ :: command m) _ []).
    - rewrite Hframe. rewrite <- !app_assoc, app_nil_r. reflexivity.
    - rewrite !length_app, HF, HT, HS. simpl. lia.
    - done. }
  rewrite H0, H1, H4, H14, H88, Nat2Z.id, H89 in Hdec.
  rewrite (utf8Decode_ascii _ Hascii) in Hdec.
  assert (Hsigned : signed (mode m) = mode m).
  { unfold signed. destruct (Z.ltb_spec (mode m) 128); [done|lia]. }
  rewrite Hsigned in Hdec.
  match type of Hdec with
  | context [hasEncryptFlag ?msg] =>
      replace (hasEncryptFlag msg) with false in Hdec by (by rewrite <- He)
  end.
  eexists _, _, _, _. split; [exact Henc|]. split; [exact Hdec|].
  cbn [mode ttl from to command payload set_payload].
  split_and!; try done.
  - unfold F. destruct (hex_roundtrip 10 (from m)) as [Hl Hr]; [done..|].
    by rewrite pad_full.
  - unfold T. destruct Hto as [Hto|[Htl Hth]]; [by rewrite Hto|].
    destruct (hex_roundtrip 10 (to m)) as [Hl Hr]; [done..|].
    rewrite pad_full by done. rewrite Hr. by destruct (to m).
  - rewrite contents_app_l; cycle 1.
    { unfold h1. simpl. rewrite length_app. simpl. lia. }
    unfold slice_from. rewrite contents_slice, Hc.
    replace (len buf) with n by done.
    replace ((88 + (length (command m) + 1)) `min` n)
      with (89 + length (command m)) by (unfold n; lia).
    replace (n `min` n - (89 + length (command m)))
      with (len (payload m)) by (unfold n; lia).
    exact Hrest.
Qed.

Lemma decode_encode_sample :
  exists buf h1 m' h2,
    getBuffer (Sample.message 0) Sample.store = (Return buf, h1) /\
    fromBuffer buf h1 = (Return m', h2) /\
    mode m' = 0%Z /\ ttl m' = 1%Z /\
    from m' = js "00112233445566778899" /\
    to m' = js "aabbccddeeff00112233" /\
    command m' = js "ping" /\
    contents h2 (payload m') = [1; 2; 3]%Z.
Proof.
  apply (decode_encode (Sample.message 0) Sample.store).
  - reflexivity.
  - reflexivity.
  - simpl; lia.
  - simpl; lia.
  - compute_done.
  - right. compute_done.
  - compute_done.
  - vm_compute; lia.
  - split; simpl; lia.
  - split; simpl; lia.
Defined.

(** C2 fails as stated. A plain broadcast has [from] set, both flags unset
    and an empty [to]; what [fromBuffer] makes of its frame has twenty
    zeros for [to]. *)
Lemma decode_encode_broadcast :
  from Sample.broadcast <> [] /\
  hasEncryptFlag Sample.broadcast = false /\
  hasSignFlag Sample.broadcast = false /\
  to Sample.broadcast = [] /\
  exists buf h1 m' h2,
    getBuffer Sample.broadcast Sample.store = (Return buf, h1) /\
    fromBuffer buf h1 = (Return m', h2) /\
    to m' = js "00000000000000000000" /\
    to m' <> to Sample.broadcast.
Proof.
  split_and!; try done.
  run_both Sample.broadcast Sample.store.
  split_and!; [by vm_compute|by vm_compute|by vm_compute|done].
Qed.

(** The offset of the payload is taken from the length of the command in
    code units, not in bytes: behind a command of one accented letter,
    two bytes long, the decoded payload starts one byte early. *)
Example decode_encode_accented :
  exists buf h1 m' h2,
    getBuffer Sample.accented Sample.store = (Return buf, h1) /\
    fromBuffer buf h1 = (Return m', h2) /\
    command m' = command Sample.accented /\
    contents h1 (payload Sample.accented) = [1; 2; 3]%Z /\
    contents h2 (payload m') = [0xA9; 1; 2; 3]%Z.
Proof.
  run_both Sample.accented Sample.store.
  split_and!; by vm_compute.
Qed.

End RoundTrip.

(** ** The Peer record *)

Module PeerFacts.
Import Peer.

Section WithIdentity.
Context {PubKey NetworkId : Type} (Identity_new : PubKey -> Identity.t).

(** C8. The constructor throws the mismatch error when the address it is
    given is not the one the Identity derives from the key, and throws
    nothing else; when the two agree it returns a Peer of that address
    with [networkId] and [urls] as given and the date of [timestamp]. *)
Theorem constructor_checks_address (o : init PubKey NetworkId) :
  let derived := Identity.address (Identity_new (i_pubKey _ _ o)) in
  (i_address _ _ o <> derived ->
   constructor Identity_new o = Throw (Error "Mismatch address")) /\
  (i_address _ _ o = derived ->
   exists p, constructor Identity_new o = Return p /\
     address p = i_address _ _ o /\
     networkId p = i_networkId _ _ o /\
     urls p = i_urls _ _ o /\
     timestamp p = Date_new (i_timestamp _ _ o)) /\
  (forall e, constructor Identity_new o = Throw e ->
     e = Error "Mismatch address" /\ i_address _ _ o <> derived).
Proof.
  intros derived. unfold constructor. fold derived.
  destruct (decide (i_address _ _ o = derived)) as [He|Hne].
  - rewrite bool_decide_eq_true_2 by done. simpl.
    split_and!; [done| |done].
    intros _. eexists. split; [reflexivity|]. by split_and!.
  - rewrite bool_decide_eq_false_2 by done. simpl.
    split_and!; [done|done|]. by intros e [= <-].
Qed.

End WithIdentity.

(** [startsWith] holds of the strings that begin with the prefix. *)
Lemma startsWith_spec s p :
  startsWith s p = true <-> exists rest, s = p ++ rest.
Proof.
  revert s. induction p as [|c p IH]; intros s; simpl.
  - split; [|done]. intros _. by exists s.
  - destruct s as [|d s].
    + split; [done|]. by intros [rest [=]].
    + rewrite andb_true_iff, IH, Z.eqb_eq. split.
      * intros [-> [rest ->]]. eauto.
      * intros [rest [= -> ->]]. eauto.
Qed.

Lemma found_find_eligible node url :
  found (List.find (fun dialer => startsWith url (proto dialer ++ js ":"))
           (dialers node)) = true <-> eligible node url.
Proof.
  unfold eligible. induction (dialers node) as [|d ds IH]; simpl.
  - split; [done|]. intros (d & rest & Hd & _). by apply elem_of_nil in Hd.
  - destruct (startsWith url (proto d ++ js ":")) eqn:Hs; simpl.
    + split; [|done]. intros _.
      apply startsWith_spec in Hs as [rest Hrest].
      exists d, rest. split; [by left|]. by rewrite Hrest, <- app_assoc.
    + rewrite IH. split.
      * intros (d' & rest & Hd & Hu). exists d', rest. split; [by right|done].
      * intros (d' & rest & Hd & Hu). apply elem_of_cons in Hd as [->|Hd].
        -- assert (startsWith url (proto d ++ js ":") = true) as Ht.
           { apply startsWith_spec. exists rest. by rewrite Hu, <- app_assoc. }
           congruence.
        -- exists d', rest. by split.
Qed.

Lemma sublist_filter_greatest {A} (f : A -> bool) (l k : list A) :
  sublist k l -> Forall (fun x => f x = true) k -> sublist k (List.filter f l).
Proof.
  induction 1 as [|x k l Hs IH|x k l Hs IH]; intros Hk; simpl.
  - constructor.
  - apply Forall_cons in Hk as [Hx Hk]. rewrite Hx. constructor. by apply IH.
  - destruct (f x); [constructor|]; by apply IH.
Qed.

Lemma sublist_filter_self {A} (f : A -> bool) (l : list A) :
  sublist (List.filter f l) l.
Proof.
  induction l as [|x l IH]; simpl; [constructor|].
  destruct (f x); by constructor.
Qed.

(** C9. [getEligibleUrls] returns the urls of the peer that the node can
    dial, in the order the peer lists them and as often as it lists them:
    the result is a subsequence of [urls], every url in it is eligible, and
    every subsequence of [urls] made of eligible urls is a subsequence of
    it. It is empty when no url is eligible, and the peer and the node are
    after the call what they were before. *)
Theorem getEligibleUrls_filters {NetworkId : Type} (node : Node)
    (p : t NetworkId) :
  exists result,
    getEligibleUrls node p = (result, (p, node)) /\
    sublist result (urls p) /\
    (forall url, url ∈ result <-> url ∈ urls p /\ eligible node url) /\
    (forall other, sublist other (urls p) -> Forall (eligible node) other ->
                   sublist other result) /\
    ((forall url, url ∈ urls p -> ~ eligible node url) -> result = []).
Proof.
  eexists. split; [reflexivity|].
  set (keep := fun url => found (List.find _ (dialers node))).
  assert (Hkeep : forall url, keep url = true <-> eligible node url).
  { intros url. apply found_find_eligible. }
  split_and!.
  - apply sublist_filter_self.
  - intros url. rewrite <- Hkeep, !list_elem_of_In. apply filter_In.
  - intros other Hs Hall. apply sublist_filter_greatest; [done|].
    eapply Forall_impl; [exact Hall|]. intros url. apply Hkeep.
  - intros Hnone. induction (urls p) as [|url l IH]; simpl; [done|].
    destruct (keep url) eqn:Hk.
    + exfalso. apply (Hnone url); [by left|]. by apply Hkeep.
    + apply IH. intros u Hu. apply Hnone. by right.
Qed.

Lemma constructor_checks_address_sample :
  constructor Sample.keyed (Sample.announcement (js "ffffffffffffffffffff"))
    = Throw (Error "Mismatch address") /\
  (exists p,
     constructor Sample.keyed (Sample.announcement (js "00112233445566778899"))
       = Return p /\
     address p = js "00112233445566778899" /\
     networkId p = 1%Z /\
     urls p = [js "tcp:1.2.3.4:9"; js "ws:host/path"] /\
     timestamp p = TimeValue 1500000000000) /\
  i_address _ _ (Sample.announcement (js "ffffffffffffffffffff"))
    <> Identity.address (Sample.keyed (js "00112233445566778899")).
Proof.
  split_and!.
  - apply (constructor_checks_address Sample.keyed
             (Sample.announcement (js "ffffffffffffffffffff"))).
    vm_compute. discriminate.
  - apply (constructor_checks_address Sample.keyed
             (Sample.announcement (js "00112233445566778899"))).
    reflexivity.
  - destruct (constructor_checks_address Sample.keyed
                (Sample.announcement (js "ffffffffffffffffffff")))
      as (_ & _ & Honly).
    apply (Honly (Error "Mismatch address")). reflexivity.
Defined.

Lemma getEligibleUrls_sample :
  exists result,
    getEligibleUrls Sample.node Sample.peer
      = (result, (Sample.peer, Sample.node)) /\
    result = [js "tcp:1.2.3.4:9"].
Proof.
  destruct (getEligibleUrls_filters Sample.node Sample.peer)
    as (result & Hr & _).
  exists result. split; [exact Hr|].
  assert (result = fst (getEligibleUrls Sample.node Sample.peer)) as ->
    by (by rewrite Hr).
  reflexivity.
Defined.

End PeerFacts.

(** * More properties *)

(** ** More on the store *)

Lemma bind_Throw {A B} (m : M A) (k : A -> M B) h e h' :
  m h = (Throw e, h') -> bind m k h = (Throw e, h').
Proof. intros H. unfold bind. by rewrite H. Qed.

Lemma preserved_trans h1 h2 h3 :
  preserved h1 h2 -> preserved h2 h3 -> preserved h1 h3.
Proof.
  intros H12 H23 b Hb. destruct (H12 b Hb) as [Hb2 Hc2].
  destruct (H23 b Hb2) as [Hb3 Hc3]. split; [done|congruence].
Qed.

Lemma preserved_same h : preserved h h.
Proof. by intros b Hb. Qed.

Lemma allocated_new (h : Heap) bs :
  allocated (h ++ [bs]) (mkBuffer (length h) 0 (length bs)).
Proof.
  split; simpl.
  - rewrite length_app. simpl. lia.
  - replace (length h) with (length h + 0) by lia.
    rewrite cell_app_r. unfold cell; simpl. lia.
Qed.

Lemma allocated_slice h b start stop :
  allocated h b -> allocated h (slice b start stop).
Proof. intros [Hb Hn]. split; unfold slice; simpl; [done|lia]. Qed.

Lemma cell_insert_ne (h : Heap) a a' x :
  a <> a' -> cell (<[a:=x]> h) a' = cell h a'.
Proof. intros Ha. unfold cell. by rewrite list_lookup_insert_ne. Qed.

(** A write through a buffer leaves the byte arrays of other addresses. *)
Lemma set_index_other h b b' index value :
  buffer b' <> buffer b ->
  contents (snd (set_index b index value h)) b' = contents h b'.
Proof.
  intros Hne. unfold set_index. case_decide; [|done].
  unfold poke, contents; simpl. by rewrite cell_insert_ne.
Qed.

Lemma contents_slice_from (h : Heap) b start :
  contents h (slice_from b start) = drop start (contents h b).
Proof.
  unfold slice_from. rewrite contents_slice. unfold window.
  pose proof (contents_length_le h b) as Hc.
  rewrite take_ge by (rewrite length_drop; lia).
  destruct (decide (start <= len b)).
  - f_equal. lia.
  - rewrite !drop_ge; [done|lia..].
Qed.

Lemma drop_at (l pre post : list Z) off :
  l = pre ++ post -> off = length pre -> drop off l = post.
Proof. intros -> ->. apply drop_app_length. Qed.

(** ** [fromBuffer] on any buffer *)

Lemma readUInt8_throws b offset h :
  len b < offset + 1 -> readUInt8 b offset h = (Throw out_of_range, h).
Proof. intros Ho. unfold readUInt8. by rewrite decide_False by lia. Qed.

Lemma readUInt16LE_throws b offset h :
  len b < offset + 2 -> readUInt16LE b offset h = (Throw out_of_range, h).
Proof. intros Ho. unfold readUInt16LE. by rewrite decide_False by lia. Qed.

Module DecodeMore.
Import Message Layout DecodeFacts.

Lemma hasEncryptFlag_set_encrypted r m :
  hasEncryptFlag (set_encrypted r m) = hasEncryptFlag m.
Proof. reflexivity. Qed.

Lemma hasEncryptFlag_set_payload r m :
  hasEncryptFlag (set_payload r m) = hasEncryptFlag m.
Proof. reflexivity. Qed.

Lemma fromBuffer_short b h :
  len b < 89 -> fromBuffer b h = (Throw out_of_range, h).
Proof.
  intros Hlen. unfold fromBuffer. cbv zeta.
  change (0 + 1 + 1 + 2 + 10 + 10 + 64) with 88.
  change (0 + 1 + 1 + 2) with 4.
  change (0 + 1 + 1) with 2.
  change (0 + 1) with 1.
  unfold readInt8.
  destruct (decide (len b < 1)).
  { apply bind_Throw. apply bind_Throw. apply readUInt8_throws. lia. }
  erewrite bind_Return; cycle 1.
  { erewrite bind_Return by (apply readUInt8_runs; lia). reflexivity. }
  destruct (decide (len b < 2)).
  { apply bind_Throw. apply readUInt8_throws. lia. }
  erewrite bind_Return by (apply readUInt8_runs; lia).
  destruct (decide (len b < 4)).
  { apply bind_Throw. apply readUInt16LE_throws. lia. }
  erewrite bind_Return by (apply readUInt16LE_runs; lia).
  unfold toString_hex.
  erewrite bind_Return by reflexivity.
  erewrite bind_Return by reflexivity.
  apply bind_Throw. unfold readLengthPrefixed.
  apply bind_Throw. apply readUInt8_throws. lia.
Qed.

(** X1. [fromBuffer] returns exactly on the buffers of at least 89 bytes,
    the fixed header and the length of the command: on a shorter one a
    read throws the out-of-range error, and the store is as it was. *)
Theorem fromBuffer_needs_89_bytes (b : Buffer) (h : Heap) :
  (len b < 89 -> fromBuffer b h = (Throw out_of_range, h)) /\
  (89 <= len b -> exists m h', fromBuffer b h = (Return m, h')).
Proof.
  split.
  - apply fromBuffer_short.
  - intros Hlen. eexists _, _. by apply fromBuffer_runs.
Qed.

Lemma fromBuffer_needs_89_bytes_sample :
  fromBuffer (mkBuffer 0 0 3) Sample.store = (Throw out_of_range, Sample.store)
  /\ exists m h',
       fromBuffer MoreSample.wire_buffer MoreSample.wire_store = (Return m, h').
Proof.
  split.
  - apply (fromBuffer_needs_89_bytes (mkBuffer 0 0 3) Sample.store).
    simpl; lia.
  - apply (fromBuffer_needs_89_bytes MoreSample.wire_buffer MoreSample.wire_store).
    simpl; lia.
Defined.

(** X2. [fromBuffer] copies no bytes. Of the message it returns, the
    signature is the view on bytes 24 to 87 of the buffer, the payload in
    force is the view on what follows the command, counted in code units,
    and the other of [payload] and [encrypted] is a new empty buffer; the
    store gains these two empty arrays and nothing else. So whatever the
    buffer holds later, the message holds too. *)
Theorem fromBuffer_views (b : Buffer) (h h' : Heap) (m : t) :
  fromBuffer b h = (Return m, h') ->
  h' = h ++ [[]; []] /\
  signature m = slice b 24 88 /\
  len (signature m) = 64 /\
  active m = slice_from b (89 + length (command m)) /\
  len (if hasEncryptFlag m then payload m else encrypted m) = 0 /\
  forall h2,
    contents h2 (signature m) = window 24 64 (contents h2 b) /\
    contents h2 (active m) = drop (89 + length (command m)) (contents h2 b).
Proof.
  intros Hrun.
  destruct (decide (len b < 89)) as [Hshort|Hlen].
  { rewrite fromBuffer_short in Hrun by done. discriminate. }
  pose proof (fromBuffer_runs b h) as Hdec. cbv zeta in Hdec.
  rewrite Hdec in Hrun by lia. clear Hdec.
  injection Hrun as <- <-.
  match goal with
  | |- context [hasEncryptFlag ?msg] =>
      match msg with
      | mk _ _ _ _ _ _ _ _ _ => set (message := msg)
      end
  end.
  assert (Hsig : forall h2,
            contents h2 (slice b 24 88) = window 24 64 (contents h2 b)).
  { intros h2. rewrite contents_slice. f_equal; lia. }
  destruct (hasEncryptFlag message) eqn:He.
  - unfold active. rewrite hasEncryptFlag_set_encrypted, He. cbn [signature encrypted payload command set_encrypted message].
    split_and!; try done.
    + unfold slice; cbn [len]; lia.
    + f_equal. lia.
    + intros h2. split; [apply Hsig|].
      rewrite contents_slice_from. f_equal. lia.
  - unfold active. rewrite hasEncryptFlag_set_payload, He. cbn [signature encrypted payload command set_payload message].
    split_and!; try done.
    + unfold slice; cbn [len]; lia.
    + f_equal. lia.
    + intros h2. split; [apply Hsig|].
      rewrite contents_slice_from. f_equal. lia.
Qed.

Lemma fromBuffer_views_sample :
  exists m h',
    fromBuffer MoreSample.wire_buffer MoreSample.wire_store = (Return m, h') /\
    h' = MoreSample.wire_store ++ [[]; []] /\
    command m = js "hi" /\
    payload m = mkBuffer 0 91 3 /\
    contents h' (payload m) = [7; 7; 7]%Z /\
    contents (snd (set_index MoreSample.wire_buffer 91 9 h')) (payload m)
      = [9; 7; 7]%Z.
Proof.
  let r := eval vm_compute in
    (fromBuffer MoreSample.wire_buffer MoreSample.wire_store) in
  match r with
  | (Return ?m, ?h') =>
      exists m, h';
      assert (Hrun : fromBuffer MoreSample.wire_buffer MoreSample.wire_store
                     = (Return m, h')) by (by vm_compute);
      destruct (fromBuffer_views _ _ _ _ Hrun) as (Hh & _ & _ & _ & _ & Hc)
  end.
  split; [exact Hrun|]. split; [exact Hh|].
  split_and!; by vm_compute.
Defined.

End DecodeMore.

(** ** [getBuffer] on any message *)

Module EncodeMore.
Import Message Layout EncodeFacts.

(** Where the fields lie in a frame. *)
Lemma frame_layout m sig pay :
  let c := frame m sig pay in
  let cmd := utf8Encode (command m) in
  nth 0 c 0%Z = mode m /\
  nth 1 c 0%Z = ttl m /\
  window 4 10 c = pad 10 (hexDecode 10 (from m)) /\
  window 14 10 c = pad 10 (hexDecode 10 (to m)) /\
  window 24 64 c = pad 64 sig /\
  nth 88 c 0%Z = Z.of_nat (length cmd) /\
  window 89 (length cmd) c = cmd /\
  drop (89 + length cmd) c = pay.
Proof.
  intros c cmd.
  set (F := pad 10 (hexDecode 10 (from m))).
  set (T := pad 10 (hexDecode 10 (to m))).
  set (S := pad 64 sig).
  assert (Hframe : c = [mode m; ttl m; Z.land (mode m) 255; Z.shiftr (mode m) 8]
            ++ F ++ T ++ S ++ (Z.of_nat (length cmd) :: cmd) ++ pay)
    by reflexivity.
  assert (HF : length F = 10) by apply length_pad.
  assert (HT : length T = 10) by apply length_pad.
  assert (HS : length S = 64) by apply length_pad.
  split_and!.
  - by rewrite Hframe.
  - by rewrite Hframe.
  - eapply (window_at _ [_; _; _; _]); [exact Hframe|done|done].
  - eapply (window_at _ ([_; _; _; _] ++ F)).
    + rewrite Hframe. by rewrite <- app_assoc.
    + rewrite length_app, HF. done.
    + done.
  - eapply (window_at _ ([_; _; _; _] ++ F ++ T)).
    + rewrite Hframe. by rewrite <- !app_assoc.
    + rewrite !length_app, HF, HT. done.
    + done.
  - eapply (nth_at _ ([_; _; _; _] ++ F ++ T ++ S)).
    + rewrite Hframe. by rewrite <- !app_assoc.
    + rewrite !length_app, HF, HT, HS. done.
  - eapply (window_at _ ([_; _; _; _] ++ F ++ T ++ S ++ [_])).
    + rewrite Hframe. rewrite <- !app_assoc. reflexivity.
    + rewrite !length_app, HF, HT, HS. done.
    + done.
  - eapply (drop_at _ ([_; _; _; _] ++ F ++ T ++ S ++ _ :: cmd)).
    + rewrite Hframe. rewrite <- !app_assoc. reflexivity.
    + rewrite !length_app, HF, HT, HS. simpl. lia.
Qed.



Lemma writeUInt8_throws b v off h :
  ~ (0 <= v <= 255)%Z -> writeUInt8 b v off h = (Throw out_of_range, h).
Proof. intros Hv. unfold writeUInt8. by rewrite decide_False. Qed.

(** A command of more than 255 bytes cannot be prefixed with its length. *)
Lemma getLengthPrefixed_long s h :
  255 < length (utf8Encode s) ->
  getLengthPrefixed (Str s) h =
    (Throw out_of_range,
     h ++ [utf8Encode s; replicate (1 + length (utf8Encode s)) 0%Z]).
Proof.
  intros HL. unfold getLengthPrefixed.
  erewrite bind_Return by apply toBuffer_Str.
  cbn [len].
  erewrite bind_Return by apply alloc_runs.
  erewrite bind_Throw; cycle 1.
  { apply writeUInt8_throws. lia. }
  by rewrite <- app_assoc.
Qed.

Lemma getBuffer_out_of_range m h :
  encodable m -> ~ in_range m ->
  exists h', getBuffer m h = (Throw out_of_range, h') /\ preserved h h'.
Proof.
  intros (Hfrom & Hsig & Henc) Hrange.
  unfold getBuffer.
  destruct (from m) as [|f0 fs] eqn:Ef; [done|]. simpl truthy.
  erewrite bind_Return by reflexivity.
  replace (hasSignFlag m && (len (signature m) =? 0)) with false; cycle 1.
  { destruct (hasSignFlag m); [|done]. simpl. symmetry.
    apply Nat.eqb_neq. by apply Hsig. }
  replace (hasEncryptFlag m && (len (encrypted m) =? 0)) with false; cycle 1.
  { destruct (hasEncryptFlag m); [|done]. simpl. symmetry.
    apply Nat.eqb_neq. by apply Henc. }
  cbv zeta.
  destruct (decide (length (utf8Encode (command m)) <= 255)) as [Hcmd|Hcmd].
  - erewrite bind_Return by (by apply getLengthPrefixed_Str).
    cbn [len].
    erewrite bind_Return by apply alloc_runs.
    change (0 + 1) with 1.
    destruct (decide (0 <= mode m <= 255)%Z) as [Hmode|Hmode].
    + erewrite bind_Return by (apply writeUInt8_last; [done|lia]).
      assert (Httl : ~ (0 <= ttl m <= 255)%Z).
      { intros Httl. apply Hrange. unfold in_range. lia. }
      erewrite bind_Throw by (by apply writeUInt8_throws).
      eexists. split; [reflexivity|].
      rewrite <- app_assoc. apply preserved_app.
    + erewrite bind_Throw by (by apply writeUInt8_throws).
      eexists. split; [reflexivity|].
      rewrite <- app_assoc. apply preserved_app.
  - erewrite bind_Throw by (apply getLengthPrefixed_long; lia).
    eexists. split; [reflexivity|]. apply preserved_app.
Qed.

Lemma getBuffer_rejects m h :
  ~ encodable m -> exists e, getBuffer m h = (Throw e, h).
Proof.
  intros Hno. unfold getBuffer.
  destruct (from m) as [|f0 fs] eqn:Ef; [by eexists|]. simpl truthy.
  erewrite bind_Return by reflexivity.
  destruct (hasSignFlag m && (len (signature m) =? 0)) eqn:Hs; [by eexists|].
  destruct (hasEncryptFlag m && (len (encrypted m) =? 0)) eqn:He; [by eexists|].
  exfalso. apply Hno. split_and!; [by rewrite Ef|..].
  - intros Hf. rewrite Hf in Hs. simpl in Hs. by apply Nat.eqb_neq.
  - intros Hf. rewrite Hf in He. simpl in He. by apply Nat.eqb_neq.
Qed.

(** A message to which [getBuffer] returns passed its checks and lies
    within the ranges. *)
Lemma getBuffer_Return_inv m h buf h' :
  getBuffer m h = (Return buf, h') -> encodable m /\ in_range m.
Proof.
  intros Hrun.
  assert (Hok : encodable m).
  { destruct (decide (from m <> [])) as [Hf|Hf]; cycle 1.
    { destruct (getBuffer_rejects m h) as [e He]; [|congruence].
      intros (Hf' & _). done. }
    destruct (hasSignFlag m && (len (signature m) =? 0)) eqn:Hs.
    { destruct (getBuffer_rejects m h) as [e He]; [|congruence].
      intros (_ & Hs' & _). apply andb_true_iff in Hs as [Hs1 Hs2].
      apply Nat.eqb_eq in Hs2. by apply Hs'. }
    destruct (hasEncryptFlag m && (len (encrypted m) =? 0)) eqn:He.
    { destruct (getBuffer_rejects m h) as [e He']; [|congruence].
      intros (_ & _ & He''). apply andb_true_iff in He as [He1 He2].
      apply Nat.eqb_eq in He2. by apply He''. }
    split_and!; [done|..].
    - intros Hflag. rewrite Hflag in Hs. simpl in Hs. by apply Nat.eqb_neq.
    - intros Hflag. rewrite Hflag in He. simpl in He. by apply Nat.eqb_neq. }
  split; [done|].
  destruct (decide (0 <= mode m <= 255)%Z) as [Hmode|Hmode];
    [destruct (decide (0 <= ttl m <= 255)%Z) as [Httl|Httl];
     [destruct (decide (length (utf8Encode (command m)) <= 255)) as [Hc|Hc]|]|].
  - unfold in_range. lia.
  - destruct (getBuffer_out_of_range m h) as (h2 & Hthrow & _);
      [done|intros (_ & _ & Hc'); done|congruence].
  - destruct (getBuffer_out_of_range m h) as (h2 & Hthrow & _);
      [done|intros (_ & Ht' & _); done|congruence].
  - destruct (getBuffer_out_of_range m h) as (h2 & Hthrow & _);
      [done|intros (Hm' & _); done|congruence].
Qed.



End EncodeMore.

(** ** The length-prefixed field *)

Module PrefixFacts.
Import Message Layout EncodeFacts.






End PrefixFacts.

(** ** Errors of the crypto-flag state machine *)

Module CryptoMore.
Import Message Layout MessageFacts.

Lemma assert_fails {A} msg (k : M A) h :
  (assert false msg;; k) h = (Throw (AssertionError msg), h).
Proof. reflexivity. Qed.

Lemma assert_passes {A} msg (k : M A) h : (assert true msg;; k) h = k h.
Proof. reflexivity. Qed.

Lemma is_identity_of_true identity a :
  is_identity_of identity a = true ->
  exists id, identity = Some id /\ Identity.address id = a.
Proof.
  destruct identity as [id|]; simpl; [|done].
  intros H%bool_decide_eq_true. eauto.
Qed.

(** X6. What the four methods throw. [sign], [encrypt] and [decrypt]
    throw only their invalid-identity assertion, and exactly when their
    flag is set and the identity is missing or has another address than
    [from] (for [sign]) or [to] (for the other two). [verify] throws that
    assertion in the same case, and the invalid-signature error exactly
    when the identity is the right one and its [verify] rejects the
    payload in force with the signature. Whatever is thrown, the store is
    as it was. *)
Theorem crypto_throws (identity : option Identity.t) (m : t) (h h' : Heap)
    (e : error) :
  (sign identity m h = (Throw e, h') <->
   hasSignFlag m = true /\ is_identity_of identity (from m) = false /\
   e = AssertionError "Invalid identity to sign with" /\ h' = h) /\
  (verify identity m h = (Throw e, h') <->
   hasSignFlag m = true /\ h' = h /\
   (is_identity_of identity (from m) = false /\
    e = AssertionError "Invalid identity to verify with"
    \/ exists id, identity = Some id /\ Identity.address id = from m /\
         Identity.verify id (contents h (active m)) (contents h (signature m))
           = false /\
         e = Error "Invalid signature")) /\
  (encrypt identity m h = (Throw e, h') <->
   hasEncryptFlag m = true /\ is_identity_of identity (to m) = false /\
   e = AssertionError "Invalid identity to encrypt with" /\ h' = h) /\
  (decrypt identity m h = (Throw e, h') <->
   hasEncryptFlag m = true /\ is_identity_of identity (to m) = false /\
   e = AssertionError "Invalid identity to decrypt with" /\ h' = h).
Proof.
  split; [|split; [|split]].
  - unfold sign. destruct (hasSignFlag m); simpl; cycle 1.
    { split; [done|]. by intros ([=] & _). }
    destruct (is_identity_of identity (from m)) eqn:Hid.
    + destruct (is_identity_of_true _ _ Hid) as (id & -> & Ha).
      rewrite assert_passes. split; [done|]. by intros (_ & [=] & _).
    + rewrite assert_fails. split.
      * by intros [= <- <-].
      * by intros (_ & _ & -> & ->).
  - unfold verify. destruct (hasSignFlag m); simpl; cycle 1.
    { split; [done|]. by intros ([=] & _). }
    destruct (is_identity_of identity (from m)) eqn:Hid.
    + destruct (is_identity_of_true _ _ Hid) as (id & -> & Ha).
      rewrite assert_passes.
      unfold bind, Identity.call_verify, read, ret; simpl.
      destruct (Identity.verify id _ _) eqn:Hv; simpl.
      * split; [done|].
        intros (_ & _ & [[[=] _]|(id' & [= <-] & _ & Hv' & _)]).
        congruence.
      * split.
        -- intros [= <- <-]. split_and!; try done. right. by exists id.
        -- intros (_ & -> & [[[=] _]|(id' & [= <-] & _ & _ & ->)]). done.
    + rewrite assert_fails. split.
      * intros [= <- <-]. split_and!; try done. by left.
      * intros (_ & -> & [[_ ->]|(id & -> & Ha & _)]); [done|].
        simpl in Hid. by rewrite bool_decide_eq_true_2 in Hid.
  - unfold encrypt. destruct (hasEncryptFlag m); simpl; cycle 1.
    { split; [done|]. by intros ([=] & _). }
    destruct (is_identity_of identity (to m)) eqn:Hid.
    + destruct (is_identity_of_true _ _ Hid) as (id & -> & Ha).
      rewrite assert_passes. split; [done|]. by intros (_ & [=] & _).
    + rewrite assert_fails. split.
      * by intros [= <- <-].
      * by intros (_ & _ & -> & ->).
  - unfold decrypt. destruct (hasEncryptFlag m); simpl; cycle 1.
    { split; [done|]. by intros ([=] & _). }
    destruct (is_identity_of identity (to m)) eqn:Hid.
    + destruct (is_identity_of_true _ _ Hid) as (id & -> & Ha).
      rewrite assert_passes. split; [done|]. by intros (_ & [=] & _).
    + rewrite assert_fails. split.
      * by intros [= <- <-].
      * by intros (_ & _ & -> & ->).
Qed.

Lemma crypto_throws_sample :
  sign (Some Sample.bob) (Sample.message 2) Sample.store =
    (Throw (AssertionError "Invalid identity to sign with"), Sample.store) /\
  verify None (Sample.message 2) Sample.store =
    (Throw (AssertionError "Invalid identity to verify with"), Sample.store) /\
  verify (Some Sample.alice) (Sample.message 2) Sample.store =
    (Throw (Error "Invalid signature"), Sample.store) /\
  encrypt None (Sample.message 1) Sample.store =
    (Throw (AssertionError "Invalid identity to encrypt with"), Sample.store) /\
  decrypt (Some Sample.alice) (Sample.message 1) Sample.store =
    (Throw (AssertionError "Invalid identity to decrypt with"), Sample.store).
Proof.
  split_and!.
  - apply (crypto_throws (Some Sample.bob) (Sample.message 2)). by vm_compute.
  - apply (crypto_throws None (Sample.message 2)).
    split_and!; [done|done|]. by left.
  - apply (crypto_throws (Some Sample.alice) (Sample.message 2)).
    split_and!; [done|done|]. right. exists Sample.alice. by vm_compute.
  - apply (crypto_throws None (Sample.message 1)). by vm_compute.
  - apply (crypto_throws (Some Sample.alice) (Sample.message 1)). by vm_compute.
Defined.

(** X7. Tampering is detected. Let the identity be the sender's and let
    its [verify] accept a signature for no other bytes than those signed.
    After [sign], storing at an index of the payload in force a byte
    other than the one it holds makes [verify] throw the
    invalid-signature error. *)
Theorem tamper_detected (id : Identity.t) (m : t) (h : Heap) (index : nat)
    (value : Z) :
  hasSignFlag m = true ->
  Identity.address id = from m ->
  (forall p p', Identity.verify id p' (Identity.sign id p) = true -> p' = p) ->
  allocated h (active m) ->
  index < len (active m) ->
  (value mod 256)%Z <> nth index (contents h (active m)) 0%Z ->
  exists m1 h1 h2,
    sign (Some id) m h = (Return (This, m1), h1) /\
    set_index (active m1) index value h1 = (Return tt, h2) /\
    verify (Some id) m1 h2 = (Throw (Error "Invalid signature"), h2).
Proof.
  intros Hs Ha Hsound Hact Hi Hv.
  set (p := contents h (active m)) in *.
  set (h1 := h ++ [Identity.sign id p]).
  assert (Hact1 : allocated h1 (active m)) by by apply allocated_app_l.
  destruct (set_index_contents h1 (active m) index value Hact1 Hi)
    as (h2 & Hset & Hc).
  exists (set_signature (mkBuffer (length h) 0 (length (Identity.sign id p))) m),
    h1, h2.
  split; [by apply sign_runs|].
  rewrite active_set_signature.
  split; [exact Hset|].
  rewrite verify_runs by done.
  rewrite active_set_signature. cbn [signature set_signature].
  assert (Hh2 : h2 = snd (set_index (active m) index value h1))
    by by rewrite Hset.
  assert (Hsig : contents h2 (mkBuffer (length h) 0 (length (Identity.sign id p)))
            = Identity.sign id p).
  { rewrite Hh2, set_index_other.
    - apply contents_new.
    - simpl. destruct Hact as [Hb _]. lia. }
  rewrite Hsig, Hc.
  unfold h1. rewrite contents_app_l by apply Hact. fold p.
  destruct (Identity.verify id (<[index:=(value mod 256)%Z]> p)
              (Identity.sign id p)) eqn:Hver; [|done].
  exfalso. apply Hsound in Hver.
  apply Hv. rewrite <- Hver at 1. symmetry.
  apply nth_lookup_Some with (d := 0%Z).
  apply list_lookup_insert_eq. unfold p. by rewrite contents_length.
Qed.

Lemma tamper_detected_sample :
  exists m1 h1 h2,
    sign (Some Sample.alice) (Sample.message 2) Sample.store
      = (Return (This, m1), h1) /\
    set_index (active m1) 0 9 h1 = (Return tt, h2) /\
    verify (Some Sample.alice) m1 h2 = (Throw (Error "Invalid signature"), h2).
Proof.
  apply (tamper_detected Sample.alice (Sample.message 2) Sample.store 0 9).
  - reflexivity.
  - reflexivity.
  - intros p p' H. simpl in H. apply bool_decide_eq_true in H.
    apply (f_equal (@rev Z)) in H. by rewrite !rev_involutive in H.
  - split; simpl; lia.
  - simpl; lia.
  - vm_compute. discriminate.
Defined.

End CryptoMore.

(** ** The constructor and the buffers of a Message *)

Module ConstructorFacts.
Import Message Layout.







End ConstructorFacts.

(** ** The buffers of a Message are buffers of the store *)

Module Invariant.
Import Message Layout MessageFacts EncodeFacts EncodeMore DecodeFacts DecodeMore.

Lemma well_formed_preserved h h' m :
  preserved h h' -> well_formed h m -> well_formed h' m.
Proof.
  intros Hp (H1 & H2 & H3). split_and!; by apply Hp.
Qed.

Lemma call_allocated f b h p h' :
  Identity.call f b h = (Return p, h') -> allocated h' p /\ preserved h h'.
Proof.
  unfold Identity.call, bind, read, new. intros [= <- <-].
  split; [apply allocated_new|apply preserved_app].
Qed.

(** X9. No method loses a buffer. If the three buffers of a Message are
    buffers of the store, they still are, with their bytes, after [sign],
    [verify], [encrypt], [decrypt], [clone] or [getBuffer] has returned,
    and so are the buffers of the message that the method leaves and the
    buffer that [getBuffer] returns. *)
Theorem well_formed_kept (m : t) (h : Heap) :
  well_formed h m ->
  (forall identity r m' h',
     sign identity m h = (Return (r, m'), h')
     \/ verify identity m h = (Return (r, m'), h')
     \/ encrypt identity m h = (Return (r, m'), h')
     \/ decrypt identity m h = (Return (r, m'), h') ->
     well_formed h' m' /\ preserved h h') /\
  (forall m' h', clone m h = (Return m', h') ->
     well_formed h' m' /\ preserved h h') /\
  (forall buf h', getBuffer m h = (Return buf, h') ->
     allocated h' buf /\ well_formed h' m /\ preserved h h').
Proof.
  intros Hwf. split_and!.
  - intros identity r m' h' [Hrun|[Hrun|[Hrun|Hrun]]].
    + destruct (sign_frame _ _ _ _ _ _ Hrun) as (_ & Hp & He & Hpres).
      split; [|done]. destruct Hwf as (W1 & W2 & W3).
      split_and!; [rewrite Hp; by apply Hpres| |rewrite He; by apply Hpres].
      revert Hrun. unfold sign. destruct (hasSignFlag m); simpl.
      * intros [Hc H]%asserted. destruct identity as [id|]; [|done].
        revert H. unfold bind at 1.
        destruct (Identity.call _ _ h) as [[p|e] h1] eqn:Hcall; [|done].
        intros [= <- <- <-]. by apply call_allocated in Hcall as [? ?].
      * intros [= <- <- <-]. done.
    + destruct (verify_frame _ _ _ _ _ _ Hrun) as [-> ->].
      split; [done|apply preserved_refl].
    + destruct (encrypt_frame _ _ _ _ _ _ Hrun) as (_ & Hp & Hs & Hpres).
      split; [|done]. destruct Hwf as (W1 & W2 & W3).
      split_and!; [rewrite Hp; by apply Hpres|rewrite Hs; by apply Hpres|].
      revert Hrun. unfold encrypt. destruct (hasEncryptFlag m); simpl.
      * intros [Hc H]%asserted. destruct identity as [id|]; [|done].
        revert H. unfold bind at 1.
        destruct (Identity.call _ _ h) as [[p|e] h1] eqn:Hcall; [|done].
        intros [= <- <- <-]. by apply call_allocated in Hcall as [? ?].
      * intros [= <- <- <-]. done.
    + destruct (decrypt_frame _ _ _ _ _ _ Hrun) as (_ & He & Hs & Hpres).
      split; [|done]. destruct Hwf as (W1 & W2 & W3).
      split_and!; [|rewrite Hs; by apply Hpres|rewrite He; by apply Hpres].
      revert Hrun. unfold decrypt. destruct (hasEncryptFlag m); simpl.
      * intros [Hc H]%asserted. destruct identity as [id|]; [|done].
        revert H. unfold bind at 1.
        destruct (Identity.call _ _ h) as [[p|e] h1] eqn:Hcall; [|done].
        intros [= <- <- <-]. by apply call_allocated in Hcall as [? ?].
      * intros [= <- <- <-]. done.
  - intros m' h'. rewrite clone_returns. intros [= <- <-].
    split; [done|apply preserved_refl].
  - intros buf h' Hrun.
    destruct (getBuffer_Return_inv _ _ _ _ Hrun) as [Hok Hrange].
    assert (Hact : allocated h (active m)).
    { destruct Hwf as (W1 & W2 & W3). unfold active.
      by destruct (hasEncryptFlag m). }
    pose proof (getBuffer_runs m h Hok Hrange (proj1 (proj2 Hwf)) Hact) as Hr.
    rewrite Hr in Hrun. injection Hrun as <- <-.
    assert (Hpres : preserved h
              (h ++ [utf8Encode (command m);
                     Z.of_nat (length (utf8Encode (command m)))
                       :: utf8Encode (command m);
                     frame m (contents h (signature m))
                       (contents h (active m))])) by apply preserved_app.
    split_and!; [|by eapply well_formed_preserved|done].
    split; cbn [buffer byteOffset len].
    + rewrite length_app. cbn [length]. lia.
    + rewrite cell_app_r.
      match goal with
      | |- context [cell [?a; ?b; ?c] 2] => change (cell [a; b; c] 2) with c
      end.
      rewrite length_frame, contents_length by done. lia.
Qed.

Lemma well_formed_sample : well_formed Sample.store (Sample.message 3).
Proof. split_and!; split; simpl; lia. Defined.

Lemma well_formed_kept_sample :
  well_formed (Sample.store ++ [[1; 2; 3]%Z])
    (set_signature (mkBuffer 3 0 3) (Sample.message 3)) /\
  preserved Sample.store (Sample.store ++ [[1; 2; 3]%Z]).
Proof.
  destruct (well_formed_kept (Sample.message 3) Sample.store well_formed_sample)
    as (Hmethods & _ & _).
  apply (Hmethods (Some Sample.alice) This). left. reflexivity.
Defined.

End Invariant.

(** ** Round trip of any message, and the whole pipeline *)

Lemma land_signed v :
  (0 <= v <= 255)%Z ->
  Z.land (signed v) 1 = Z.land v 1 /\ Z.land (signed v) 2 = Z.land v 2.
Proof.
  intros Hv. unfold signed. destruct (Z.ltb_spec v 128); [done|].
  assert (H4 : Z.land (v - 256) 3 = Z.land v 3).
  { change 3%Z with (Z.ones 2). rewrite !Z.land_ones by lia.
    replace (v - 256)%Z with (v + (-64) * 2 ^ 2)%Z by lia.
    apply Z_mod_plus_full. }
  split.
  - change 1%Z with (Z.land 3 1). by rewrite !Z.land_assoc, H4.
  - change 2%Z with (Z.land 3 2). by rewrite !Z.land_assoc, H4.
Qed.

Lemma uint16LE_byte v :
  (0 <= v <= 255)%Z -> (Z.land v 255 + Z.shiftr v 8 * 256 = v)%Z.
Proof.
  intros Hv. change 255%Z with (Z.ones 8).
  rewrite Z.land_ones, Z.shiftr_div_pow2 by lia.
  rewrite Z.mod_small, Z.div_small by lia. lia.
Qed.

Module RoundTripMore.
Import Message Layout EncodeFacts EncodeMore DecodeFacts.

Lemma hasEncryptFlag_mode m m' :
  Z.land (mode m') 1 = Z.land (mode m) 1 -> hasEncryptFlag m' = hasEncryptFlag m.
Proof. unfold hasEncryptFlag, MODE_ENCRYPTED. by intros ->. Qed.

Lemma hasSignFlag_mode m m' :
  Z.land (mode m') 2 = Z.land (mode m) 2 -> hasSignFlag m' = hasSignFlag m.
Proof. unfold hasSignFlag, MODE_SIGNED. by intros ->. Qed.

(** What [fromBuffer] makes of the frame of a message with an ASCII
    command. *)
Lemma decode_of_encode m h :
  encodable m -> in_range m -> isAscii (command m) ->
  allocated h (signature m) -> allocated h (active m) ->
  exists buf h1 m' h2,
    getBuffer m h = (Return buf, h1) /\
    fromBuffer buf h1 = (Return m', h2) /\
    preserved h h2 /\
    mode m' = signed (mode m) /\
    hasEncryptFlag m' = hasEncryptFlag m /\
    hasSignFlag m' = hasSignFlag m /\
    ttl m' = ttl m /\
    seq m' = mode m /\
    from m' = hexEncode (pad 10 (hexDecode 10 (from m))) /\
    to m' = hexEncode (pad 10 (hexDecode 10 (to m))) /\
    command m' = command m /\
    allocated h2 (signature m') /\
    contents h2 (signature m') = pad 64 (contents h (signature m)) /\
    allocated h2 (active m') /\
    contents h2 (active m') = contents h (active m) /\
    allocated h2 (if hasEncryptFlag m then payload m' else encrypted m') /\
    len (if hasEncryptFlag m then payload m' else encrypted m') = 0.
Proof.
  intros Hok Hrange Hascii Hsig Hact.
  assert (Hcmd : utf8Encode (command m) = command m)
    by by apply utf8Encode_ascii.
  pose proof (getBuffer_runs m h Hok Hrange Hsig Hact) as Henc.
  destruct Hrange as (Hmode & Httl & Hclen).
  rewrite Hcmd in Henc, Hclen.
  set (sig := contents h (signature m)) in *.
  set (pay := contents h (active m)) in *.
  set (c := frame m sig pay) in *.
  set (h1 := h ++ [command m; Z.of_nat (length (command m)) :: command m; c]) in *.
  set (n := 88 + (1 + length (command m)) + len (active m)) in *.
  set (buf := mkBuffer (length h + 2) 0 n) in *.
  assert (Hpay : length pay = len (active m)) by by apply contents_length.
  assert (Hn : n = length c).
  { unfold c. rewrite length_frame, Hcmd, Hpay. done. }
  assert (Hc : contents h1 buf = c) by by apply contents_frame.
  assert (Hlen : 89 <= len buf) by (simpl; unfold n; lia).
  assert (Hbuf : allocated h1 buf).
  { split; unfold buf; cbn [buffer byteOffset len].
    - unfold h1. rewrite length_app. cbn [length]. lia.
    - unfold h1. rewrite cell_app_r.
      match goal with
      | |- context [cell [?x; ?y; ?z] 2] => change (cell [x; y; z] 2) with z
      end. lia. }
  pose proof (fromBuffer_runs buf h1 Hlen) as Hdec. cbv zeta in Hdec.
  rewrite Hc in Hdec.
  destruct (frame_layout m sig pay)
    as (H0 & H1 & H4 & H14 & H24 & H88 & H89 & Hrest).
  fold c in H0, H1, H4, H14, H24, H88, H89, Hrest.
  rewrite Hcmd in H88, H89, Hrest.
  assert (H2 : nth 2 c 0%Z = Z.land (mode m) 255) by reflexivity.
  assert (H3 : nth 3 c 0%Z = Z.shiftr (mode m) 8) by reflexivity.
  rewrite H0, H1, H2, H3, H4, H14, H88, Nat2Z.id, H89 in Hdec.
  rewrite (utf8Decode_ascii _ Hascii), uint16LE_byte in Hdec by done.
  destruct (land_signed (mode m) Hmode) as [Hbit0 Hbit1].
  match type of Hdec with
  | context [hasEncryptFlag ?msg] =>
      set (message := msg) in *;
      assert (HE : hasEncryptFlag message = hasEncryptFlag m)
        by (by apply hasEncryptFlag_mode);
      assert (HS : hasSignFlag message = hasSignFlag m)
        by (by apply hasSignFlag_mode)
  end.
  set (rest := slice_from buf (88 + (length (command m) + 1))) in *.
  set (h2 := h1 ++ [[]; []]) in *.
  assert (P12 : preserved h1 h2) by apply preserved_app.
  assert (P02 : preserved h h2).
  { eapply preserved_trans; [apply preserved_app|exact P12]. }
  assert (Hrest2 : allocated h2 rest /\ contents h2 rest = pay).
  { split.
    - apply P12. by apply allocated_slice.
    - unfold h2. rewrite contents_app_l by apply Hbuf.
      unfold rest. rewrite contents_slice_from, Hc.
      rewrite <- Hrest. f_equal. lia. }
  assert (Hsig2 : allocated h2 (slice buf 24 88)
                  /\ contents h2 (slice buf 24 88) = pad 64 sig).
  { split.
    - apply P12. by apply allocated_slice.
    - unfold h2. rewrite contents_app_l by apply Hbuf.
      rewrite contents_slice, Hc. rewrite <- H24.
      f_equal; unfold buf; cbn [len]; lia. }
  assert (Hp0 : allocated h2 (mkBuffer (length h1) 0 0)).
  { split; cbn [buffer byteOffset len].
    - unfold h2. rewrite length_app. cbn [length]. lia.
    - lia. }
  assert (He0 : allocated h2 (mkBuffer (length h1 + 1) 0 0)).
  { split; cbn [buffer byteOffset len].
    - unfold h2. rewrite length_app. cbn [length]. lia.
    - lia. }
  destruct (hasEncryptFlag m) eqn:Hflag; rewrite HE in Hdec.
  - exists buf, h1, (set_encrypted rest message), h2.
    split; [exact Henc|]. split; [exact Hdec|].
    unfold active.
    rewrite hasEncryptFlag_mode with (m := message) (m' := set_encrypted rest message)
      by done.
    rewrite HE.
    cbn [mode ttl seq from to command payload signature encrypted
           set_encrypted message].
    destruct Hrest2, Hsig2. by split_and!.
  - exists buf, h1, (set_payload rest message), h2.
    split; [exact Henc|]. split; [exact Hdec|].
    unfold active.
    rewrite hasEncryptFlag_mode with (m := message) (m' := set_payload rest message)
      by done.
    rewrite HE.
    cbn [mode ttl seq from to command payload signature encrypted
           set_payload message].
    destruct Hrest2, Hsig2. by split_and!.
Qed.

(** X10. Round trip of any message. For a message that [getBuffer]
    accepts, with an ASCII command, [fromBuffer] of its frame returns a
    message with the same two flags, [ttl] and [command], whose payload
    in force holds the bytes of the original's, and whose other payload
    field is empty. Its [seq] is the original's [mode]. Its [mode] is the
    original's when that is below 128; [from] and [to] are the original's
    when these are twenty lowercase hex digits; its signature holds the
    bytes of the original's when that has 64 bytes. *)
Theorem decode_encode_any_mode (m : t) (h : Heap) :
  encodable m -> in_range m -> isAscii (command m) ->
  allocated h (signature m) -> allocated h (active m) ->
  exists buf h1 m' h2,
    getBuffer m h = (Return buf, h1) /\
    fromBuffer buf h1 = (Return m', h2) /\
    hasEncryptFlag m' = hasEncryptFlag m /\
    hasSignFlag m' = hasSignFlag m /\
    ttl m' = ttl m /\ command m' = command m /\
    seq m' = mode m /\
    ((mode m < 128)%Z -> mode m' = mode m) /\
    (isAddress (from m) -> from m' = from m) /\
    (isAddress (to m) -> to m' = to m) /\
    (len (signature m) = 64 ->
     contents h2 (signature m') = contents h (signature m)) /\
    contents h2 (active m') = contents h (active m) /\
    len (if hasEncryptFlag m' then payload m' else encrypted m') = 0.
Proof.
  intros Hok Hrange Hascii Hsig Hact.
  destruct (decode_of_encode m h Hok Hrange Hascii Hsig Hact)
    as (buf & h1 & m' & h2 & Henc & Hdec & _ & Hmode & HE & HS & Httl & Hseq
        & Hfrom & Hto & Hcmd & _ & Hcsig & _ & Hcact & _ & Hempty).
  exists buf, h1, m', h2. split_and!; try done.
  - intros Hlt. rewrite Hmode. unfold signed.
    destruct (Z.ltb_spec (mode m) 128); [done|lia].
  - intros [Hl Hd]. rewrite Hfrom.
    destruct (hex_roundtrip 10 (from m)) as [Hl' Hr]; [done..|].
    by rewrite pad_full.
  - intros [Hl Hd]. rewrite Hto.
    destruct (hex_roundtrip 10 (to m)) as [Hl' Hr]; [done..|].
    by rewrite pad_full.
  - intros H64. rewrite Hcsig. apply pad_full.
    by rewrite contents_length.
  - by rewrite HE.
Qed.

Lemma decode_encode_any_mode_sample :
  exists buf h1 m' h2,
    getBuffer (Sample.message 3) Sample.store = (Return buf, h1) /\
    fromBuffer buf h1 = (Return m', h2) /\
    hasEncryptFlag m' = true /\ hasSignFlag m' = true /\
    ttl m' = 1%Z /\ command m' = js "ping" /\ seq m' = 3%Z /\
    mode m' = 3%Z /\
    from m' = js "00112233445566778899" /\
    to m' = js "aabbccddeeff00112233" /\
    contents h2 (encrypted m') = [3; 2; 1]%Z /\
    len (payload m') = 0.
Proof.
  destruct (decode_encode_any_mode (Sample.message 3) Sample.store)
    as (buf & h1 & m' & h2 & Henc & Hdec & HE & HS & Httl & Hcmd & Hseq
        & Hmode & Hfrom & Hto & _ & Hact & Hempty).
  - split_and!; [done|intros _; simpl; lia|intros _; simpl; lia].
  - split_and!; [simpl; lia..|vm_compute; lia].
  - compute_done.
  - split; simpl; lia.
  - split; simpl; lia.
  - exists buf, h1, m', h2.
    assert (HE' : hasEncryptFlag m' = true) by exact HE.
    unfold active in Hact. rewrite HE' in Hact, Hempty.
    split_and!; [exact Henc|exact Hdec|exact HE|exact HS|exact Httl|exact Hcmd
                |exact Hseq| | | |exact Hact|exact Hempty].
    + apply Hmode. simpl; lia.
    + apply Hfrom. compute_done.
    + apply Hto. compute_done.
Defined.

End RoundTripMore.

Module Pipeline.
Import Message Layout MessageFacts RoundTripMore.

(** [encrypt] with the recipient's identity, whatever the flag. *)
Lemma encrypt_either id m h :
  Identity.address id = to m ->
  exists r m1 h1,
    encrypt (Some id) m h = (Return (r, m1), h1) /\
    preserved h h1 /\ routing m1 = routing m /\
    payload m1 = payload m /\ signature m1 = signature m /\
    (if hasEncryptFlag m
     then allocated h1 (encrypted m1) /\
          contents h1 (encrypted m1) = Identity.encrypt id (contents h (payload m))
     else encrypted m1 = encrypted m).
Proof.
  intros Ha. destruct (hasEncryptFlag m) eqn:He.
  - eexists _, _, _. split; [by apply encrypt_runs|].
    split_and!;
      first [done|apply allocated_new|apply contents_new|apply preserved_app].
  - exists Undefined, m, h. unfold encrypt. rewrite He.
    split_and!; first [done|apply preserved_same].
Qed.

Lemma sign_either id m h :
  Identity.address id = from m ->
  exists r m1 h1,
    sign (Some id) m h = (Return (r, m1), h1) /\
    preserved h h1 /\ routing m1 = routing m /\
    payload m1 = payload m /\ encrypted m1 = encrypted m /\
    (if hasSignFlag m
     then allocated h1 (signature m1) /\
          contents h1 (signature m1) = Identity.sign id (contents h (active m))
     else signature m1 = signature m).
Proof.
  intros Ha. destruct (hasSignFlag m) eqn:Hs.
  - eexists _, _, _. split; [by apply sign_runs|].
    split_and!;
      first [done|apply allocated_new|apply contents_new|apply preserved_app].
  - exists Undefined, m, h. unfold sign. rewrite Hs.
    split_and!; first [done|apply preserved_same].
Qed.

Lemma verify_either id m h :
  Identity.address id = from m ->
  (hasSignFlag m = true ->
   Identity.verify id (contents h (active m)) (contents h (signature m)) = true) ->
  exists r, verify (Some id) m h = (Return (r, m), h).
Proof.
  intros Ha Hv. destruct (hasSignFlag m) eqn:Hs.
  - exists This. rewrite verify_runs by done. by rewrite Hv.
  - exists Undefined. unfold verify. by rewrite Hs.
Qed.

Lemma decrypt_either id m h :
  Identity.address id = to m ->
  exists r m1 h1,
    decrypt (Some id) m h = (Return (r, m1), h1) /\
    routing m1 = routing m /\
    (if hasEncryptFlag m
     then contents h1 (payload m1) = Identity.decrypt id (contents h (encrypted m))
     else m1 = m /\ h1 = h).
Proof.
  intros Ha. destruct (hasEncryptFlag m) eqn:He.
  - eexists _, _, _. split; [by apply decrypt_runs|].
    split; [done|]. apply contents_new.
  - exists Undefined, m, h. unfold decrypt. by rewrite He.
Qed.

Lemma routing_eq m m' :
  routing m' = routing m ->
  mode m' = mode m /\ ttl m' = ttl m /\ from m' = from m /\ to m' = to m /\
  command m' = command m.
Proof. unfold routing. by intros [= -> -> _ -> -> ->]. Qed.

(** X11. The whole pipeline. Whatever the flags of the message, encrypt
    with the recipient's identity, sign with the sender's, encode, decode,
    verify with the sender's and decrypt with the recipient's: every step
    returns and the payload of the message that comes out holds the bytes
    of the payload that went in, with the same addresses, [ttl] and
    command. This needs addresses of twenty lowercase hex digits, [mode]
    and [ttl] bytes, an ASCII command of at most 255 characters,
    identities whose [verify] accepts what [sign] makes, whose signatures
    have 64 bytes, whose [decrypt] undoes [encrypt], and a ciphertext that
    is not empty. *)
Theorem pipeline_restores_payload (sender receiver : Identity.t) (m : t)
    (h : Heap) :
  Identity.address sender = from m ->
  Identity.address receiver = to m ->
  isAddress (from m) -> isAddress (to m) ->
  (0 <= mode m <= 255)%Z -> (0 <= ttl m <= 255)%Z ->
  isAscii (command m) -> length (command m) <= 255 ->
  well_formed h m ->
  (forall p, Identity.verify sender p (Identity.sign sender p) = true) ->
  (forall p, length (Identity.sign sender p) = 64) ->
  (forall p, Identity.decrypt receiver (Identity.encrypt receiver p) = p) ->
  (hasEncryptFlag m = true ->
   Identity.encrypt receiver (contents h (payload m)) <> []) ->
  exists r1 m1 h1 r2 m2 h2 buf h3 m3 h4 r4 r5 m5 h5,
    encrypt (Some receiver) m h = (Return (r1, m1), h1) /\
    sign (Some sender) m1 h1 = (Return (r2, m2), h2) /\
    getBuffer m2 h2 = (Return buf, h3) /\
    fromBuffer buf h3 = (Return m3, h4) /\
    verify (Some sender) m3 h4 = (Return (r4, m3), h4) /\
    decrypt (Some receiver) m3 h4 = (Return (r5, m5), h5) /\
    contents h5 (payload m5) = contents h (payload m) /\
    from m5 = from m /\ to m5 = to m /\ ttl m5 = ttl m /\
    command m5 = command m.
Proof.
  intros Hsender Hreceiver Hfrom Hto Hmode Httl Hascii Hclen
    (Wp & Ws & We) Hverify Hsig64 Hdecrypt Hcipher.
  (* encrypt *)
  destruct (encrypt_either receiver m h Hreceiver)
    as (r1 & m1 & h1 & Hrun1 & P1 & R1 & Hp1 & Hs1 & He1).
  destruct (routing_eq _ _ R1) as (Mo1 & Tt1 & Fr1 & To1 & Cm1).
  assert (HE1 : hasEncryptFlag m1 = hasEncryptFlag m)
    by (unfold hasEncryptFlag; by rewrite Mo1).
  assert (HS1 : hasSignFlag m1 = hasSignFlag m)
    by (unfold hasSignFlag; by rewrite Mo1).
  (* the payload in force after encrypt *)
  set (a := if hasEncryptFlag m
            then Identity.encrypt receiver (contents h (payload m))
            else contents h (payload m)).
  assert (Hact1 : allocated h1 (active m1) /\ contents h1 (active m1) = a).
  { unfold active, a. rewrite HE1. destruct (hasEncryptFlag m).
    - done.
    - rewrite Hp1. by apply P1. }
  destruct Hact1 as [Aact1 Cact1].
  assert (Asig1 : allocated h1 (signature m1)) by (rewrite Hs1; by apply P1).
  (* sign *)
  assert (Hsender1 : Identity.address sender = from m1) by by rewrite Fr1.
  destruct (sign_either sender m1 h1 Hsender1)
    as (r2 & m2 & h2 & Hrun2 & P2 & R2 & Hp2 & He2 & Hs2).
  destruct (routing_eq _ _ R2) as (Mo2 & Tt2 & Fr2 & To2 & Cm2).
  assert (HE2 : hasEncryptFlag m2 = hasEncryptFlag m)
    by (unfold hasEncryptFlag; by rewrite Mo2, Mo1).
  assert (HS2 : hasSignFlag m2 = hasSignFlag m)
    by (unfold hasSignFlag; by rewrite Mo2, Mo1).
  assert (Hact2 : allocated h2 (active m2) /\ contents h2 (active m2) = a).
  { assert (active m2 = active m1) as ->.
    { unfold active. by rewrite HE2, HE1, Hp2, He2. }
    rewrite <- Cact1. by apply P2. }
  destruct Hact2 as [Aact2 Cact2].
  assert (Hsig2 : allocated h2 (signature m2) /\
            (hasSignFlag m = true ->
             contents h2 (signature m2) = Identity.sign sender a)).
  { rewrite HS1 in Hs2. destruct (hasSignFlag m).
    - destruct Hs2 as [A C]. split; [done|]. intros _. by rewrite C, Cact1.
    - rewrite Hs2. split; [by apply P2|done]. }
  destruct Hsig2 as [Asig2 Csig2].
  (* encode and decode *)
  assert (Hok : encodable m2).
  { split_and!.
    - rewrite Fr2, Fr1. destruct Hfrom as [Hl _]. by destruct (from m).
    - rewrite HS2. intros Hflag.
      rewrite <- (contents_length h2) by done.
      by rewrite Csig2, Hsig64.
    - rewrite HE2. intros Hflag.
      assert (active m2 = encrypted m2) as Heq
        by (unfold active; by rewrite HE2, Hflag).
      rewrite <- Heq. rewrite <- (contents_length h2) by done.
      rewrite Cact2. unfold a. rewrite Hflag.
      specialize (Hcipher Hflag).
      by destruct (Identity.encrypt receiver _). }
  assert (Hascii2 : isAscii (command m2)) by by rewrite Cm2, Cm1.
  assert (Hrange : in_range m2).
  { unfold in_range. rewrite (utf8Encode_ascii _ Hascii2).
    rewrite Mo2, Mo1, Tt2, Tt1, Cm2, Cm1. lia. }
  destruct (decode_of_encode m2 h2 Hok Hrange Hascii2 Asig2 Aact2)
    as (buf & h3 & m3 & h4 & Henc & Hdec & _ & _ & HE3 & HS3 & Tt3 & _
        & Fr3 & To3 & Cm3 & _ & Csig3 & _ & Cact3 & _).
  assert (Hfrom3 : from m3 = from m).
  { rewrite Fr3, Fr2, Fr1. destruct Hfrom as [Hl Hd].
    destruct (hex_roundtrip 10 (from m)) as [Hl' Hr]; [done..|].
    by rewrite pad_full. }
  assert (Hto3 : to m3 = to m).
  { rewrite To3, To2, To1. destruct Hto as [Hl Hd].
    destruct (hex_roundtrip 10 (to m)) as [Hl' Hr]; [done..|].
    by rewrite pad_full. }
  (* verify *)
  assert (Hsender3 : Identity.address sender = from m3) by by rewrite Hfrom3.
  destruct (verify_either sender m3 h4 Hsender3) as [r4 Hrun4].
  { rewrite HS3, HS2. intros Hflag.
    rewrite Cact3, Cact2, Csig3, (Csig2 Hflag).
    rewrite pad_full by apply Hsig64. apply Hverify. }
  (* decrypt *)
  assert (Hreceiver3 : Identity.address receiver = to m3) by by rewrite Hto3.
  destruct (decrypt_either receiver m3 h4 Hreceiver3)
    as (r5 & m5 & h5 & Hrun5 & R5 & Hp5).
  destruct (routing_eq _ _ R5) as (Mo5 & Tt5 & Fr5 & To5 & Cm5).
  exists r1, m1, h1, r2, m2, h2, buf, h3, m3, h4, r4, r5, m5, h5.
  split_and!; try done.
  - assert (Cfinal : contents h4 (active m3) = a) by by rewrite Cact3.
    unfold active, a in Cfinal. rewrite HE3, HE2 in Hp5, Cfinal.
    destruct (hasEncryptFlag m).
    + rewrite Hp5, Cfinal. apply Hdecrypt.
    + by destruct Hp5 as [-> ->].
  - by rewrite Fr5.
  - by rewrite To5.
  - by rewrite Tt5, Tt3, Tt2, Tt1.
  - by rewrite Cm5, Cm3, Cm2, Cm1.
Qed.

Lemma pipeline_restores_payload_sample :
  exists r1 m1 h1 r2 m2 h2 buf h3 m3 h4 r4 r5 m5 h5,
    encrypt (Some Sample.bob) (Sample.message 3) Sample.store
      = (Return (r1, m1), h1) /\
    sign (Some MoreSample.sender) m1 h1 = (Return (r2, m2), h2) /\
    getBuffer m2 h2 = (Return buf, h3) /\
    fromBuffer buf h3 = (Return m3, h4) /\
    verify (Some MoreSample.sender) m3 h4 = (Return (r4, m3), h4) /\
    decrypt (Some Sample.bob) m3 h4 = (Return (r5, m5), h5) /\
    contents h5 (payload m5) = [1; 2; 3]%Z /\
    from m5 = js "00112233445566778899" /\
    to m5 = js "aabbccddeeff00112233" /\
    ttl m5 = 1%Z /\
    command m5 = js "ping".
Proof.
  apply (pipeline_restores_payload MoreSample.sender Sample.bob
           (Sample.message 3) Sample.store).
  - reflexivity.
  - reflexivity.
  - compute_done.
  - compute_done.
  - simpl; lia.
  - simpl; lia.
  - compute_done.
  - vm_compute; lia.
  - split_and!; split; simpl; lia.
  - intros p. simpl. by apply bool_decide_eq_true_2.
  - intros p. simpl. apply length_pad.
  - intros p. apply rev_involutive.
  - intros _. vm_compute. discriminate.
Defined.

End Pipeline.

(** ** Making a Message *)

Lemma hexdigit_unhex x :
  (0 <= x < 16)%Z -> isLowerHex (hexdigit x) /\ unhex (hexdigit x) = Some x.
Proof.
  intros Hx. unfold hexdigit, isLowerHex, unhex.
  destruct (Z.ltb_spec x 10).
  - split; [lia|].
    destruct (Z.leb_spec 48 (48 + x)), (Z.leb_spec (48 + x) 57); simpl;
      try lia. f_equal. lia.
  - split; [lia|].
    destruct (Z.leb_spec 48 (87 + x)), (Z.leb_spec (87 + x) 57); simpl;
      try lia.
    destruct (Z.leb_spec 97 (87 + x)), (Z.leb_spec (87 + x) 102); simpl;
      try lia. f_equal. lia.
Qed.

(** The hex digits of bytes are lowercase, two per byte, and a hex write
    of them stores the bytes again. *)
Lemma hexEncode_canonical bs n :
  isBytes bs -> length bs <= n ->
  length (hexEncode bs) = 2 * length bs /\
  Forall isLowerHex (hexEncode bs) /\
  hexDecode n (hexEncode bs) = bs.
Proof.
  intros Hbs. revert n. induction Hbs as [|b bs Hb _ IH]; intros n Hn.
  - split_and!; [done|constructor|by destruct n].
  - destruct n as [|n]; [simpl in Hn; lia|].
    destruct (IH n) as (Hl & Hh & Hd); [simpl in Hn; lia|].
    assert (Hq : (0 <= b / 16 < 16)%Z).
    { split; [apply Z.div_pos; lia|apply Z.div_lt_upper_bound; lia]. }
    assert (Hr : (0 <= b mod 16 < 16)%Z) by (apply Z.mod_pos_bound; lia).
    destruct (hexdigit_unhex _ Hq) as [Lq Uq].
    destruct (hexdigit_unhex _ Hr) as [Lr Ur].
    unfold hexEncode in *. cbn [flat_map app length hexDecode].
    rewrite Uq, Ur, Hd, Hl. split_and!.
    + lia.
    + constructor; [done|]. by constructor.
    + f_equal. rewrite Z.mul_comm. symmetry. apply Z.div_mod. lia.
Qed.

Lemma isBytes_window off n l : isBytes l -> isBytes (window off n l).
Proof.
  unfold isBytes, window. intros Hl.
  apply Forall_take, Forall_drop, Hl.
Qed.

Module MakeFacts.
Import Message Layout DecodeFacts DecodeMore ConstructorFacts.

(** X12. The addresses of a decoded message. When the buffer is a buffer
    of the store and holds bytes, the [from] and [to] of the message that
    [fromBuffer] returns are twenty lowercase hex digits each, and a hex
    write of them stores bytes 4 to 13 and 14 to 23 of the buffer again:
    an absent [to] comes back as twenty zeros, never as the empty
    string. *)
Theorem fromBuffer_addresses (b : Buffer) (h h' : Heap) (m : t) :
  allocated h b -> isBytes (contents h b) ->
  fromBuffer b h = (Return m, h') ->
  isAddress (from m) /\ isAddress (to m) /\
  hexDecode 10 (from m) = window 4 10 (contents h b) /\
  hexDecode 10 (to m) = window 14 10 (contents h b) /\
  (window 14 10 (contents h b) = replicate 10 0%Z -> to m = zero_address).
Proof.
  intros Hb Hbytes Hrun.
  destruct (decide (len b < 89)) as [Hshort|Hlen].
  { rewrite fromBuffer_short in Hrun by done. discriminate. }
  pose proof (fromBuffer_runs b h) as Hdec. cbv zeta in Hdec.
  rewrite Hdec in Hrun by lia. clear Hdec.
  set (c := contents h b) in *.
  assert (Hc : length c = len b) by by apply contents_length.
  assert (Hfrom : from m = hexEncode (window 4 10 c)
                  /\ to m = hexEncode (window 14 10 c)).
  { injection Hrun as <- _.
    match goal with
    | |- context [hasEncryptFlag ?msg] => by destruct (hasEncryptFlag msg)
    end. }
  destruct Hfrom as [-> ->].
  assert (H4 : length (window 4 10 c) = 10).
  { unfold window. rewrite length_take, length_drop. lia. }
  assert (H14 : length (window 14 10 c) = 10).
  { unfold window. rewrite length_take, length_drop. lia. }
  destruct (hexEncode_canonical (window 4 10 c) 10) as (L4 & F4 & D4);
    [by apply isBytes_window|lia|].
  destruct (hexEncode_canonical (window 14 10 c) 10) as (L14 & F14 & D14);
    [by apply isBytes_window|lia|].
  split_and!; try done.
  - split; [lia|done].
  - split; [lia|done].
  - by intros ->.
Qed.

Lemma fromBuffer_addresses_sample :
  exists m h',
    fromBuffer MoreSample.wire_buffer MoreSample.wire_store = (Return m, h') /\
    isAddress (from m) /\ to m = zero_address.
Proof.
  let r := eval vm_compute in
    (fromBuffer MoreSample.wire_buffer MoreSample.wire_store) in
  match r with
  | (Return ?m, ?h') =>
      exists m, h';
      assert (Hrun : fromBuffer MoreSample.wire_buffer MoreSample.wire_store
                     = (Return m, h')) by (by vm_compute);
      destruct (fromBuffer_addresses MoreSample.wire_buffer
                  MoreSample.wire_store h' m) as (Hf & _ & _ & _ & Hz)
  end.
  - split; simpl; lia.
  - compute_done.
  - exact Hrun.
  - split; [exact Hrun|]. split; [exact Hf|]. apply Hz. by vm_compute.
Defined.



End MakeFacts.

(** ** More on the Peer record *)

Module PeerMore.
Import Peer PeerFacts.

Lemma sublist_filter_mono {A} (f g : A -> bool) (l : list A) :
  (forall x, f x = true -> g x = true) ->
  sublist (List.filter f l) (List.filter g l).
Proof.
  intros Hfg. induction l as [|x l IH]; simpl; [constructor|].
  destruct (f x) eqn:Hf.
  - rewrite (Hfg x Hf). by constructor.
  - destruct (g x); [by constructor|done].
Qed.

Lemma filter_filter_same {A} (f : A -> bool) (l : list A) :
  List.filter f (List.filter f l) = List.filter f l.
Proof.
  induction l as [|x l IH]; simpl; [done|].
  destruct (f x) eqn:Hf; simpl; [|done]. by rewrite Hf, IH.
Qed.

Lemma eligible_mono n1 n2 url :
  dials_all_of n2 n1 -> eligible n1 url -> eligible n2 url.
Proof.
  intros H12 (d & rest & Hd & Hu).
  destruct (H12 d Hd) as (d' & Hd' & Hp).
  exists d', rest. by rewrite Hp.
Qed.

(** X14. [getEligibleUrls] depends on the protocols that the node dials,
    and on nothing else of the node. A node that dials every protocol of
    another gets every url the other gets, in the same order; two nodes
    that dial the same protocols, in whatever order and however often,
    get the same urls; and a peer that is updated to the urls found
    eligible has all of them eligible again. *)
Theorem getEligibleUrls_by_protocols {NetworkId : Type} (n1 n2 : Node)
    (p : t NetworkId) :
  (dials_all_of n2 n1 ->
   sublist (fst (getEligibleUrls n1 p)) (fst (getEligibleUrls n2 p))) /\
  (dials_all_of n2 n1 -> dials_all_of n1 n2 ->
   fst (getEligibleUrls n1 p) = fst (getEligibleUrls n2 p)) /\
  (forall timestamp,
     fst (getEligibleUrls n1
            (update (mkInfo (fst (getEligibleUrls n1 p)) timestamp) p))
     = fst (getEligibleUrls n1 p)).
Proof.
  unfold getEligibleUrls; cbn [fst urls update p_urls].
  split_and!.
  - intros H12. apply sublist_filter_mono. intros url Hf.
    apply found_find_eligible. apply found_find_eligible in Hf.
    by eapply eligible_mono.
  - intros H12 H21. apply List.filter_ext. intros url.
    apply eq_true_iff_eq. rewrite !found_find_eligible.
    split; by apply eligible_mono.
  - intros timestamp. apply filter_filter_same.
Qed.

Lemma getEligibleUrls_by_protocols_sample :
  sublist (fst (getEligibleUrls Sample.node Sample.peer))
    (fst (getEligibleUrls MoreSample.bigger_node Sample.peer)) /\
  fst (getEligibleUrls MoreSample.bigger_node Sample.peer)
    = [js "tcp:1.2.3.4:9"].
Proof.
  destruct (getEligibleUrls_by_protocols Sample.node MoreSample.bigger_node
              Sample.peer) as (Hmono & _ & _).
  split; [|reflexivity]. apply Hmono.
  intros d Hd. apply list_elem_of_In in Hd. simpl in Hd.
  destruct Hd as [<-|[]].
  exists (mkDialer (js "tcp")). split; [|reflexivity].
  apply list_elem_of_In. simpl. tauto.
Defined.

Section WithIdentity.
Context {PubKey NetworkId : Type} (Identity_new : PubKey -> Identity.t).

(** X15. What announcements change. After any sequence of updates a
    peer that the constructor returned still has the identity derived
    from its key, the address it was given and its [networkId]; its
    [urls] and [timestamp] are those of the last announcement, or those
    of construction when there was none. *)
Theorem updates_keep_identity (o : init PubKey NetworkId) (p : t NetworkId)
    (infos : list peerInfo) :
  constructor Identity_new o = Return p ->
  super (updated infos p) = Identity_new (i_pubKey _ _ o) /\
  address (updated infos p) = i_address _ _ o /\
  networkId (updated infos p) = i_networkId _ _ o /\
  urls (updated infos p) =
    match last infos with
    | Some info => p_urls info
    | None => i_urls _ _ o
    end /\
  timestamp (updated infos p) =
    match last infos with
    | Some info => Date_new (p_timestamp info)
    | None => Date_new (i_timestamp _ _ o)
    end.
Proof.
  intros Hp. unfold constructor in Hp.
  destruct (bool_decide (i_address _ _ o
              = Identity.address (Identity_new (i_pubKey _ _ o)))) eqn:Ha;
    simpl in Hp; [|done].
  apply bool_decide_eq_true in Ha. injection Hp as <-.
  induction infos as [|info infos IH] using rev_ind.
  - by split_and!.
  - unfold updated in *. rewrite fold_left_app. cbn [fold_left].
    rewrite last_snoc.
    destruct IH as (Hs & Had & Hn & _ & _).
    unfold address in *. cbn [update super networkId urls timestamp].
    by split_and!.
Qed.

End WithIdentity.

Lemma updates_keep_identity_sample :
  exists p,
    constructor Sample.keyed (Sample.announcement (js "00112233445566778899"))
      = Return p /\
    address (updated [MoreSample.first_info; MoreSample.second_info] p)
      = js "00112233445566778899" /\
    urls (updated [MoreSample.first_info; MoreSample.second_info] p)
      = [js "tcp:5.6.7.8:9"; js "udp:5.6.7.8:9"] /\
    timestamp (updated [MoreSample.first_info; MoreSample.second_info] p)
      = TimeValue 1700000000000.
Proof.
  eexists. split; [reflexivity|].
  destruct (updates_keep_identity Sample.keyed
              (Sample.announcement (js "00112233445566778899")) _
              [MoreSample.first_info; MoreSample.second_info] eq_refl)
    as (_ & Ha & _ & Hu & Ht).
  split; [exact Ha|]. split; [exact Hu|exact Ht].
Defined.

End PeerMore.
